(** * kafka_charm_lib: a shallow embedding of the charm helper library

    The development follows the three source files of the repository:

    - [wand/contrib/coordinator.py]: [RestartEvent] and [OpsCoordinator],
      the serialized restart lock built on charmhelpers' [Serial]
      coordinator;
    - [java_ssl.py]: keystore and truststore helpers;
    - [wand/apps/kafka.py]: [KafkaJavaCharmBase.install_packages].

    Python values are modelled by the small fragment the code uses: [str]
    as [string], lists as [list], dictionaries with string keys as
    [gmap string _], exceptions as a result type. *)

From stdpp Require Import gmap strings list.
From Stdlib Require Import Ascii.

Local Open Scope stdpp_scope.

(** ** Python fragment *)

Module Py.

(** The exceptions the modelled code can raise. *)
Inductive exn : Type :=
| NameError (name : string)
| KeyError (key : string)
| IndexError
| TypeError
| Exception (msg : string)
| External (what : string).

(** Outcome of a call: a returned value or a propagating exception. *)
Inductive result (A : Type) : Type :=
| Returned (a : A)
| Raised (e : exn).
Arguments Returned {A} a.
Arguments Raised {A} e.

Definition bind {A B} (r : result A) (k : A -> result B) : result B :=
  match r with
  | Returned a => k a
  | Raised e => Raised e
  end.

(** The values a charm context may hold (what [json.dumps] accepts). *)
#[warnings="-register-all"]
Inductive value : Type :=
| VNone
| VBool (b : bool)
| VInt (z : Z)
| VStr (s : string)
| VList (l : list value)
| VDict (d : list (string * value)).

(** [sep.join(l)] *)
Fixpoint join (sep : string) (l : list string) : string :=
  match l with
  | [] => ""
  | x :: rest =>
      match rest with
      | [] => x
      | _ :: _ => x +:+ sep +:+ join sep rest
      end
  end.

(** [s.startswith(p)] *)
Fixpoint startswith (p s : string) : bool :=
  match p with
  | EmptyString => true
  | String a p' =>
      match s with
      | EmptyString => false
      | String b s' => Ascii.eqb a b && startswith p' s'
      end
  end.

(** [s.split(sep)] for a non-empty separator: scan left to right, cut at
    every occurrence of [sep], resume the scan after it.  [skip] counts the
    characters of a matched separator still to be passed over, [cur] is the
    piece being collected. *)
Fixpoint split_aux (sep : string) (skip : nat) (cur s : string) : list string :=
  match s with
  | EmptyString => [cur]
  | String c s' =>
      match skip with
      | S k => split_aux sep k cur s'
      | O =>
          if startswith sep s
          then cur :: split_aux sep (String.length sep - 1) "" s'
          else split_aux sep 0 (cur +:+ String c "") s'
      end
  end.

Definition split (sep s : string) : list string := split_aux sep 0 "" s.

(** [c in s] for a single character. *)
Fixpoint contains_char (c : ascii) (s : string) : bool :=
  match s with
  | EmptyString => false
  | String a s' => Ascii.eqb a c || contains_char c s'
  end.

(** Number of occurrences of a character. *)
Fixpoint count_char (c : ascii) (s : string) : nat :=
  match s with
  | EmptyString => 0
  | String a s' => (if Ascii.eqb a c then 1 else 0) + count_char c s'
  end.

End Py.

Import Py.

(** ** charmhelpers' [Serial] coordinator

    [OpsCoordinator] subclasses [charmhelpers.coordinator.Serial]; the
    methods it calls ([initialize], [handle], [acquire], [_release_granted],
    [_save_state]) live in charmhelpers, outside the repository. *)

Module Serial.

(** Modelled from the spec: a pending request of the Ledger's queue, that
    is who asks, for which lock, and its sequence number. *)
Record Request : Type := mkRequest {
  requester : string;
  lock : string;
  seq : nat
}.

(** Modelled from the spec: the Lock Ledger of charmhelpers' coordinator,
    which is not part of the repository.  [grants] maps a lock name to its
    holder (at most one per name), [requests] is the queue of pending
    requests in enqueue order, and [released] holds the locks whose holder
    has released them, the mark the leader reads at its next evaluation. *)
Record Ledger : Type := mkLedger {
  grants : gmap string string;
  released : gset string;
  requests : list Request
}.

Definition empty_ledger : Ledger := mkLedger ∅ ∅ [].

(** The service-manager capability set. *)
Inductive Call : Type :=
| ServiceResume (service : string)
| ServiceReload (service : string)
| ServiceRestart (service : string).

(** The coordinator methods of charmhelpers that [OpsCoordinator] calls. *)
Inductive Primitive : Type :=
| Initialize
| Handle
| ReleaseGranted
| SaveState.

(** One call of a coordinator method: who made it, which one, and how many
    service-manager calls had been made before it. *)
Record Entry : Type := mkEntry {
  by_unit : string;
  primitive : Primitive;
  served : nat
}.

(** Modelled from the spec: the state the protocol runs on.  [ledger] is the
    Ledger the leader maintains and the peer substrate propagates (the single
    source of truth); [memory] is each member's in-memory copy, loaded by
    [initialize]; [durable] is each member's persisted blob, written by
    [_save_state]; [clock] numbers the requests; [calls] logs every
    service-manager invocation with its outcome; [journal] logs every call
    of a coordinator method, in order. *)
Record World : Type := mkWorld {
  ledger : Ledger;
  memory : gmap string Ledger;
  durable : gmap string Ledger;
  clock : nat;
  calls : list (Call * result bool);
  journal : list Entry
}.

Definition init : World := mkWorld empty_ledger ∅ ∅ 0 [] [].

Definition set_ledger (L : Ledger) (w : World) : World :=
  mkWorld L (memory w) (durable w) (clock w) (calls w) (journal w).

Definition set_memory (unit : string) (L : Ledger) (w : World) : World :=
  mkWorld (ledger w) (<[unit := L]> (memory w)) (durable w) (clock w) (calls w)
          (journal w).

Definition set_durable (unit : string) (L : Ledger) (w : World) : World :=
  mkWorld (ledger w) (memory w) (<[unit := L]> (durable w)) (clock w) (calls w)
          (journal w).

Definition set_calls (cs : list (Call * result bool)) (w : World) : World :=
  mkWorld (ledger w) (memory w) (durable w) (clock w) cs (journal w).

(** A coordinator method was called by [unit]: it goes to the journal with
    the number of service-manager calls made so far. *)
Definition note (unit : string) (p : Primitive) (w : World) : World :=
  mkWorld (ledger w) (memory w) (durable w) (clock w) (calls w)
          (journal w ++ [mkEntry unit p (length (calls w))]).

Definition log_call (c : Call) (r : result bool) (w : World) : World :=
  set_calls (calls w ++ [(c, r)]) w.

(** The in-memory Ledger of a member (empty before its first load). *)
Definition mem (w : World) (unit : string) : Ledger :=
  default empty_ledger (memory w !! unit).

(** A Ledger shows [unit] as the holder of [lock], not yet released. *)
Definition held_by (L : Ledger) (unit : string) (kv : string * string) : Prop :=
  kv.2 = unit ∧ kv.1 ∉ released L.

#[global] Instance held_by_dec L unit kv : Decision (held_by L unit kv).
Proof. unfold held_by. apply _. Defined.

Definition holds (L : Ledger) (unit lock : string) : bool :=
  bool_decide (grants L !! lock = Some unit ∧ lock ∉ released L).

(** Modelled from the spec: [initialize] loads the Ledger (a fresh view of
    the propagated grants) into the member's memory. *)
Definition initialize (unit : string) (w : World) : World :=
  note unit Initialize (set_memory unit (ledger w) w).

(** Modelled from the spec: the FIFO tie-break, that is the earliest queued
    request for [l], and the queue without it. *)
Fixpoint take_first (l : string) (q : list Request)
  : option (Request * list Request) :=
  match q with
  | [] => None
  | r :: q' =>
      if decide (lock r = l) then Some (r, q')
      else match take_first l q' with
           | Some (r', q'') => Some (r', r :: q'')
           | None => None
           end
  end.

(** Modelled from the spec: the grant policy for one lock name.  A lock that
    is held and not released is left alone; otherwise the earliest queued
    requester becomes the holder and all others stay pending. *)
Definition grant_policy (l : string) (L : Ledger) : Ledger :=
  if bool_decide (is_Some (grants L !! l) ∧ l ∉ released L) then L
  else match take_first l (requests L) with
       | Some (r, q) =>
           mkLedger (<[l := requester r]> (grants L)) (released L ∖ {[l]}) q
       | None => L
       end.

(** Modelled from the spec: the leader's evaluation, the policy applied to
    every lock name that has a request. *)
Definition evaluate (L : Ledger) : Ledger :=
  foldl (fun acc r => grant_policy (lock r) acc) L (requests L).

(** Modelled from the spec: [handle] is the leader-only grant evaluation;
    its decision is written to the Ledger before anyone can observe it. *)
Definition handle (unit : string) (is_leader : bool) (w : World) : World :=
  note unit Handle
    (if is_leader
     then set_memory unit (evaluate (ledger w))
            (set_ledger (evaluate (ledger w)) w)
     else w).

(** Modelled from the spec: [acquire] only reads the loaded Ledger. *)
Definition acquire (unit lock : string) (w : World) : bool :=
  holds (mem w unit) unit lock.

(** Modelled from the spec: [_release_granted] clears the caller's holds in
    its local view and marks those locks as released for the leader. *)
Definition _release_granted (unit : string) (w : World) : World :=
  let V := mem w unit in
  let mine := filter (held_by V unit) (grants V) in
  let V' := mkLedger (filter (fun kv => ¬ held_by V unit kv) (grants V))
                     (released V) (requests V) in
  let L := ledger w in
  note unit ReleaseGranted
    (set_memory unit V'
       (set_ledger (mkLedger (grants L) (released L ∪ dom mine) (requests L)) w)).

(** Modelled from the spec: [_save_state] persists the member's Ledger. *)
Definition _save_state (unit : string) (w : World) : World :=
  note unit SaveState (set_durable unit (mem w unit) w).

(** Modelled from the spec: submitting a request appends it to the queue. *)
Definition request (unit l : string) (w : World) : World :=
  let L := ledger w in
  mkWorld (mkLedger (grants L) (released L)
                    (requests L ++ [mkRequest unit l (clock w)]))
          (memory w) (durable w) (S (clock w)) (calls w) (journal w).

End Serial.

Import Serial.

(** ** [wand/contrib/coordinator.py] *)

(** The service manager ([charmhelpers.core.host]): given the calls made so
    far, the outcome of the next one, a status or an exception. *)
Definition ServiceManager : Type := list (Call * result bool) -> Call -> result bool.

Module OpsCoordinator.

(** [OpsCoordinator.resume]; [unit] and [is_leader] are what
    [hookenv.local_unit()] and [hookenv.is_leader()] answer. *)
Definition resume (unit : string) (is_leader : bool) (w : World) : World :=
  handle unit is_leader (initialize unit w).

(** [OpsCoordinator.release] *)
Definition release (unit : string) (w : World) : World :=
  _save_state unit (_release_granted unit w).

(** [OpsCoordinator.handle_locks] *)
Definition handle_locks (unit : string) (is_leader : bool) (w : World) : World :=
  if negb is_leader then w
  else release unit (resume unit is_leader w).

End OpsCoordinator.

Module RestartEvent.

(** The event object: its handle, the serialized context, the services. *)
Record t : Type := mk {
  handle : string;
  _ctx : string;
  _svc : list string
}.

(** [RestartEvent.__init__]; [dumps] is [json.dumps]. *)
Definition __init__ (dumps : value -> string) (handle : string)
  (ctx : value) (services : list string) : t :=
  mk handle (dumps ctx) services.

(** [RestartEvent.snapshot] *)
Definition snapshot (self : t) : gmap string string :=
  <["ctx" := _ctx self]> (<["svc" := join "," (_svc self)]> ∅).

(** [RestartEvent.restore]: a missing key raises [KeyError]. *)
Definition restore (self : t) (snapshot : gmap string string) : result t :=
  match snapshot !! "ctx" with
  | None => Raised (KeyError "ctx")
  | Some c =>
      match snapshot !! "svc" with
      | None => Raised (KeyError "svc")
      | Some s => Returned (mk (handle self) c (split "," s))
      end
  end.

(** The [ctx] property: what the caller reads back. *)
Definition ctx (self : t) : value := VStr (_ctx self).

(** The [svc] property. *)
Definition svc (self : t) : list string := _svc self.

(** One service-manager call: logged, then its outcome; an exception
    propagates, a returned status is dropped by the caller. *)
Definition invoke (sm : ServiceManager) (c : Call) (w : World)
  : result unit * World :=
  let r := sm (calls w) c in
  (match r with
   | Returned _ => Returned tt
   | Raised e => Raised e
   end, log_call c r w).

(** The loop of [restart]: resume, reload, restart for each service. *)
Fixpoint restart_services (sm : ServiceManager) (services : list string)
  (w : World) : result unit * World :=
  match services with
  | [] => (Returned tt, w)
  | ev :: rest =>
      match invoke sm (ServiceResume ev) w with
      | (Raised e, w1) => (Raised e, w1)
      | (Returned _, w1) =>
          match invoke sm (ServiceReload ev) w1 with
          | (Raised e, w2) => (Raised e, w2)
          | (Returned _, w2) =>
              match invoke sm (ServiceRestart ev) w2 with
              | (Raised e, w3) => (Raised e, w3)
              | (Returned _, w3) => restart_services sm rest w3
              end
          end
      end
  end.

(** A sequence of calls, stopped by the first exception. *)
Fixpoint run_calls (sm : ServiceManager) (cs : list Call) (w : World)
  : result unit * World :=
  match cs with
  | [] => (Returned tt, w)
  | c :: cs' =>
      match invoke sm c w with
      | (Raised e, w1) => (Raised e, w1)
      | (Returned _, w1) => run_calls sm cs' w1
      end
  end.

(** The calls the loop makes when none raises. *)
Definition plan (services : list string) : list Call :=
  flat_map (fun ev => [ServiceResume ev; ServiceReload ev; ServiceRestart ev])
           services.

(** [RestartEvent.restart] *)
Definition restart (sm : ServiceManager) (unit : string) (is_leader : bool)
  (self : t) (w : World) : result bool * World :=
  let w1 := OpsCoordinator.resume unit is_leader w in
  if acquire unit "restart" w1 then
    match restart_services sm (svc self) w1 with
    | (Raised e, w2) => (Raised e, w2)
    | (Returned _, w2) => (Returned true, OpsCoordinator.release unit w2)
    end
  else (Returned false, OpsCoordinator.release unit w1).

(** The calls made by a run that started with the log of [before]. *)
Definition new_calls (before after : World) : list (Call * result bool) :=
  drop (length (calls before)) (calls after).

End RestartEvent.

(** ** The peer group as a transition system *)

Module Cluster.

(** The steps members take, in any interleaving. *)
Inductive Action : Type :=
| Request (unit : string) (lock : string)
| Resume (unit : string) (is_leader : bool)
| Release (unit : string)
| HandleLocks (unit : string) (is_leader : bool)
| Restart (sm : ServiceManager) (unit : string) (is_leader : bool)
          (ev : RestartEvent.t).

Definition step (w : World) (a : Action) : World :=
  match a with
  | Request unit l => request unit l w
  | Resume unit b => OpsCoordinator.resume unit b w
  | Release unit => OpsCoordinator.release unit w
  | HandleLocks unit b => OpsCoordinator.handle_locks unit b w
  | Restart sm unit b ev => (RestartEvent.restart sm unit b ev w).2
  end.

Definition run (acts : list Action) (w : World) : World := foldl step w acts.

(** What holds of every member's view in every reachable state: a member
    that sees itself as the holder is the holder in the leader's Ledger,
    and the lock is not marked released there. *)
Definition views_agree (w : World) : Prop :=
  forall unit l, acquire unit l w = true ->
    grants (ledger w) !! l = Some unit ∧ l ∉ released (ledger w).

End Cluster.

(** ** [java_ssl.py] *)

Module JavaSsl.

Definition nl : string := String "010"%char EmptyString.

Definition BEGIN_CERTIFICATE : string := "-----BEGIN CERTIFICATE-----" +:+ nl.
Definition END_CERTIFICATE : string := "-----END CERTIFICATE-----" +:+ nl.

(** The names bound at module level in [java_ssl.py]. *)
Definition module_names : list string :=
  ["os"; "shutil"; "string"; "subprocess"; "CHARS_PASSWORD"; "PASSWORD_LEN";
   "_break_crt_chain"; "saveCrtChainToFile"; "_check_file_exists";
   "genRandomPassword"; "RegisterIfKeystoreExists";
   "RegisterIfTruststoreExists"; "setFilePermissions";
   "SetTrustAndKeystoreFilePermissions"; "SetCertAndKeyFilePermissions";
   "PKCS12CreateKeystore"; "CreateTruststoreWithCertificates";
   "CreateKeystoreAndTrustore"].

Fixpoint assoc (name : string) (env : list (string * string)) : option string :=
  match env with
  | [] => None
  | (k, v) :: env' => if decide (k = name) then Some v else assoc name env'
  end.

(** Reading a string variable inside a function body: the local scope is
    searched first; a name bound neither there nor at module level raises
    [NameError], and no module-level name of this file denotes a string. *)
Definition load_name (locals : list (string * string)) (name : string)
  : result string :=
  match assoc name locals with
  | Some v => Returned v
  | None =>
      if bool_decide (name ∈ module_names) then Raised TypeError
      else Raised (NameError name)
  end.

(** The list comprehension of [_break_crt_chain], as a function of the
    string it splits. *)
Definition chain_entries (crts : string) : list string :=
  map (fun i => i +:+ END_CERTIFICATE)
      (filter (fun i => startswith BEGIN_CERTIFICATE i = true)
              (split END_CERTIFICATE crts)).

(** [_break_crt_chain(buffer)]: the body reads [crts], not [buffer]. *)
Definition _break_crt_chain (buffer : string) : result (list string) :=
  bind (load_name [("buffer", buffer)] "crts") (fun crts =>
  Returned (chain_entries crts)).

(** A file: its content, owner, group and permission bits. *)
Record File : Type := mkFile {
  content : string;
  owner : string;
  group : string;
  mode : Z
}.

Abbreviation FS := (gmap string File).

(** Computations on the file system that may raise. *)
Definition M (A : Type) : Type := FS -> result A * FS.

Definition ret {A} (a : A) : M A := fun fs => (Returned a, fs).
Definition raise {A} (e : exn) : M A := fun fs => (Raised e, fs).
Definition lift {A} (r : result A) : M A := fun fs => (r, fs).
Definition andThen {A B} (m : M A) (k : A -> M B) : M B :=
  fun fs => match m fs with
            | (Returned a, fs') => k a fs'
            | (Raised e, fs') => (Raised e, fs')
            end.

(** [try: m except Exception as e: h(e)] *)
Definition tryExcept {A} (m : M A) (h : exn -> M A) : M A :=
  fun fs => match m fs with
            | (Returned a, fs') => (Returned a, fs')
            | (Raised e, fs') => h e fs'
            end.

Notation "x <- m ;; k" := (andThen m (fun x => k))
  (at level 100, m at level 99, right associativity).
Notation "m ;;; k" := (andThen m (fun _ => k))
  (at level 100, right associativity).

(** [subprocess.check_call]: an external command acting on the files. *)
Definition Shell : Type := list string -> M unit.

(** [_check_file_exists]: [os.stat] succeeds exactly on existing paths.  Only
    [FileNotFoundError] is caught; the other errors of [os.stat] (a path
    below a regular file, a forbidden directory) have no counterpart in the
    flat file map. *)
Definition _check_file_exists (path : string) : M bool :=
  fun fs => (Returned (bool_decide (is_Some (fs !! path))), fs).

Definition RegisterIfKeystoreExists (path : string) : M bool :=
  _check_file_exists path.

Definition RegisterIfTruststoreExists (path : string) : M bool :=
  _check_file_exists path.

(** [with open(path, "w") as f: f.write(s)]: create or truncate, then write. *)
Definition write_file (path s : string) : M unit :=
  fun fs =>
    (Returned tt,
     match fs !! path with
     | Some f => <[path := mkFile s (owner f) (group f) (mode f)]> fs
     | None => <[path := mkFile s "root" "root" 420]> fs
     end).

(** [os.remove] *)
Definition remove (path : string) : M unit :=
  fun fs => match fs !! path with
            | Some _ => (Returned tt, delete path fs)
            | None => (Raised (External "FileNotFoundError"), fs)
            end.

(** [shutil.chown] on the file map.  The account database is not part of the
    state: the [LookupError] of an unknown user or group, raised before the
    path is looked at, and permission errors are outside this definition. *)
Definition chown (path user grp : string) : M unit :=
  fun fs => match fs !! path with
            | Some f => (Returned tt, <[path := mkFile (content f) user grp (mode f)]> fs)
            | None => (Raised (External "FileNotFoundError"), fs)
            end.

(** [os.chmod]: a mode that does not fit a C int raises [OverflowError]
    before the path is looked at; of any other mode the file keeps the low
    twelve bits ([-1] gives [0o7777]). *)
Definition chmod (path : string) (bits : Z) : M unit :=
  fun fs =>
    if bool_decide (-2147483648 <= bits <= 2147483647)%Z then
      match fs !! path with
      | Some f =>
          (Returned tt,
           <[path := mkFile (content f) (owner f) (group f) (Z.land bits 4095)]> fs)
      | None => (Raised (External "FileNotFoundError"), fs)
      end
    else (Raised (External "OverflowError"), fs).

(** [setFilePermissions]; [if mode:] is false for [None] and for [0]. *)
Definition setFilePermissions (path user grp : string) (bits : option Z) : M unit :=
  chown path user grp ;;;
  match bits with
  | Some b => if decide (b = 0%Z) then ret tt else chmod path b
  | None => ret tt
  end.

(** [saveCrtChainToFile]; [cert_path] may be [None]. *)
Definition saveCrtChainToFile (buffer : string) (cert_path : option string)
  (ca_chain_path user grp : string) (force : bool) : M unit :=
  crts <- lift (_break_crt_chain buffer) ;;
  cert_exists <- match cert_path with
                 | Some p => _check_file_exists p
                 | None => raise TypeError
                 end ;;
  (if cert_exists && negb force
   then raise (Exception (default "" cert_path +:+ " already exists, aborting"))
   else ret tt) ;;;
  ca_exists <- _check_file_exists ca_chain_path ;;
  (if ca_exists && negb force
   then raise (Exception (ca_chain_path +:+ " already exists, aborting"))
   else ret tt) ;;;
  match cert_path with
  | Some p =>
      if decide (p = "") then
        (* [open] of the empty path *)
        raise (External "FileNotFoundError")
      else
        leaf <- lift (match crts with
                      | c :: _ => Returned c
                      | [] => Raised IndexError
                      end) ;;
        write_file p leaf ;;;
        (* [f.write(crts[1:])] is handed a list *)
        write_file ca_chain_path "" ;;;
        raise TypeError
  | None => raise TypeError
  end.

Definition tmp_chain : string := "/tmp/kafka-broker-charm-cert.chain".
Definition tmp_key : string := "/tmp/kafka-broker-charm.key".
Definition tmp_p12 : string := "/tmp/kafka-broker-charm.p12".

Definition cleanup : M unit :=
  remove tmp_key ;;; remove tmp_p12 ;;; remove tmp_chain.

(** [PKCS12CreateKeystore] *)
Definition PKCS12CreateKeystore (check_call : Shell)
  (keystore_path keystore_pwd ssl_chain ssl_key : string) : M unit :=
  tryExcept
    (write_file tmp_chain ssl_chain ;;;
     write_file tmp_key ssl_key ;;;
     check_call ["openssl"; "pkcs12"; "-export"; "-in"; tmp_chain;
                 "-inkey"; tmp_key; "-out"; tmp_p12;
                 "-name"; "localhost"; "-passout"; "pass:mykeypassword"] ;;;
     check_call ["keytool"; "-importkeystore"; "-srckeystore"; tmp_p12;
                 "-srcstoretype"; "pkcs12"; "-srcstorepass"; "mykeypassword";
                 "-destkeystore"; keystore_path; "-deststoretype"; "pkcs12";
                 "-deststorepass"; keystore_pwd; "-destkeypass"; keystore_pwd])
    (fun e => cleanup ;;; raise e) ;;;
  cleanup.

(** [CreateTruststoreWithCertificates]: the import command is built for
    each certificate but never run. *)
Fixpoint write_each (path : string) (ssl_ca : list string) : M unit :=
  match ssl_ca with
  | [] => ret tt
  | c :: rest => write_file path c ;;; write_each path rest
  end.

Definition CreateTruststoreWithCertificates
  (truststore_path truststore_pwd : string) (ssl_ca : list string) : M unit :=
  write_each "/tmp/juju_ca_cert" ssl_ca ;;;
  remove "/tmp/juju_ca_cert".

(** [CreateKeystoreAndTrustore]; it returns [None] on every path. *)
Definition CreateKeystoreAndTrustore (check_call : Shell)
  (keystore_path truststore_path : string) (regenerate_stores : bool)
  (keystore_pwd truststore_pwd ssl_cert_chain ssl_key user grp : string)
  (bits : option Z) : M unit :=
  ks <- RegisterIfKeystoreExists keystore_path ;;
  ts <- (if ks then RegisterIfTruststoreExists truststore_path else ret false) ;;
  if ks && ts && negb regenerate_stores then
    (* return None as this option is not needed *)
    ret tt
  else
    cert_chain <- lift (_break_crt_chain ssl_cert_chain) ;;
    leaf <- lift (match cert_chain with
                  | c :: _ => Returned c
                  | [] => Raised IndexError
                  end) ;;
    PKCS12CreateKeystore check_call keystore_path keystore_pwd leaf ssl_key ;;;
    CreateTruststoreWithCertificates truststore_path truststore_pwd
      (tail cert_chain) ;;;
    setFilePermissions keystore_path user grp bits ;;;
    setFilePermissions truststore_path user grp bits.

(** [SetTrustAndKeystoreFilePermissions]; [0o640] is 416. *)
Definition SetTrustAndKeystoreFilePermissions
  (user grp keystore_path truststore_path : string) : M unit :=
  chown keystore_path user grp ;;;
  chmod keystore_path 416 ;;;
  chown truststore_path user grp ;;;
  chmod truststore_path 416.

(** [SetCertAndKeyFilePermissions] *)
Definition SetCertAndKeyFilePermissions
  (user grp ca_cert_path cert_path key_path : string) : M unit :=
  chown ca_cert_path user grp ;;;
  chmod ca_cert_path 416 ;;;
  chown cert_path user grp ;;;
  chmod cert_path 416 ;;;
  chown key_path user grp ;;;
  chmod key_path 416.

(** [string.ascii_letters + string.digits] *)
Definition CHARS_PASSWORD : string :=
  "abcdefghijklmnopqrstuvwxyzABCDEFGHIJKLMNOPQRSTUVWXYZ0123456789".

Definition PASSWORD_LEN : nat := 48.

(** [s[i]] for a non-negative index. *)
Definition getitem (s : string) (i : nat) : result ascii :=
  match String.get i s with
  | Some c => Returned c
  | None => Raised IndexError
  end.

(** The character [genRandomPassword] picks for one random byte. *)
Definition pick_char (c : ascii) : result ascii :=
  getitem CHARS_PASSWORD (nat_of_ascii c mod String.length CHARS_PASSWORD).

(** The generator expression of [genRandomPassword] over the bytes. *)
Fixpoint pick_chars (bytes : list ascii) : result (list string) :=
  match bytes with
  | [] => Returned []
  | c :: rest =>
      bind (pick_char c) (fun ch =>
      bind (pick_chars rest) (fun l => Returned (String ch "" :: l)))
  end.

(** [genRandomPassword]; [urandom] is [os.urandom]. *)
Definition genRandomPassword (urandom : nat -> list ascii) : result string :=
  bind (pick_chars (urandom PASSWORD_LEN)) (fun l => Returned (join "" l)).

(** The 256 byte values, and how many of them give the character [ch]. *)
Definition all_bytes : list ascii := map ascii_of_nat (List.seq 0 256).

Definition gives (ch b : ascii) : bool :=
  match pick_char b with
  | Returned c => Ascii.eqb c ch
  | Raised _ => false
  end.

Definition bytes_giving (ch : ascii) : nat :=
  length (filter (fun b => gives ch b = true) all_bytes).

(** The two external commands of [PKCS12CreateKeystore]. *)
Definition pk12_cmd : list string :=
  ["openssl"; "pkcs12"; "-export"; "-in"; tmp_chain;
   "-inkey"; tmp_key; "-out"; tmp_p12;
   "-name"; "localhost"; "-passout"; "pass:mykeypassword"].

Definition ks_cmd (keystore_path keystore_pwd : string) : list string :=
  ["keytool"; "-importkeystore"; "-srckeystore"; tmp_p12;
   "-srcstoretype"; "pkcs12"; "-srcstorepass"; "mykeypassword";
   "-destkeystore"; keystore_path; "-deststoretype"; "pkcs12";
   "-deststorepass"; keystore_pwd; "-destkeypass"; keystore_pwd].

(** What [os.remove], [shutil.chown] and [os.chmod] raise on a missing path. *)
Definition missing : exn := External "FileNotFoundError".

(** The file at [path] belongs to [user] and [grp] with permission [bits]. *)
Definition has_perms (fs : FS) (path user grp : string) (bits : Z) : Prop :=
  exists f, fs !! path = Some f /\ owner f = user /\ group f = grp /\ mode f = bits.

(** Two file systems hold the same files with the same contents. *)
Definition same_contents (fs fs' : FS) : Prop :=
  forall path, content <$> (fs' !! path) = content <$> (fs !! path).

End JavaSsl.

(** ** [wand/apps/kafka.py] *)

Module Kafka.

(** What [install_packages] asks of the host, in order. *)
Inductive Effect : Type :=
| CheckOutput (cmd : list string)
| AddSource (source key : string)
| AptUpdate
| AptInstall (packages : list string).

(** The host functions ([subprocess], [charmhelpers.fetch.ubuntu]); each
    may raise. *)
Record Host : Type := mkHost {
  check_output : list string -> result string;
  add_source : string -> string -> result unit;
  apt_update : result unit;
  apt_install : list string -> result unit
}.

Definition LATEST_VERSION_CONFLUENT : string := "6.1".

(** [str.lower] on ASCII text. *)
Definition lower_char (c : ascii) : ascii :=
  let n := nat_of_ascii c in
  if (65 <=? n)%nat && (n <=? 90)%nat then ascii_of_nat (n + 32) else c.

Fixpoint lower (s : string) : string :=
  match s with
  | EmptyString => EmptyString
  | String c s' => String (lower_char c) (lower s')
  end.

(** The [distro] property. *)
Definition distro (config : gmap string string) : string :=
  lower (default "confluent" (config !! "distro")).

(** [install_packages]: the outcome and the host calls made, in order. *)
Definition install_packages (host : Host) (config : gmap string string)
  (java_version : string) (packages : list string)
  : result unit * list Effect :=
  let version := default LATEST_VERSION_CONFLUENT (config !! "version") in
  let install (done : list Effect) :=
    (apt_install host packages, done ++ [AptInstall packages]) in
  if decide (distro config = "confluent") then
    let cmd := ["wget"; "-qO"; "-";
                "https://packages.confluent.io/deb/" +:+ version +:+ "/archive.key"] in
    let source := "deb [arch=amd64] https://packages.confluent.io/deb/"
                  +:+ version +:+ " stable main" in
    match check_output host cmd with
    | Raised e => (Raised e, [CheckOutput cmd])
    | Returned key =>
        match add_source host source key with
        | Raised e => (Raised e, [CheckOutput cmd; AddSource source key])
        | Returned _ =>
            match apt_update host with
            | Raised e => (Raised e, [CheckOutput cmd; AddSource source key; AptUpdate])
            | Returned _ => install [CheckOutput cmd; AddSource source key; AptUpdate]
            end
        end
    end
  else if decide (distro config = "apache") then
    (Raised (Exception "Not Implemented Yet"), [])
  else install [].

(** No package was installed and no source added. *)
Definition nothing_installed (done : list Effect) : Prop := done = [].

(** [is_client_ssl_enabled]: the answer and the warnings logged. *)
Definition is_client_ssl_enabled (config : gmap string string)
  : bool * list string :=
  let cert := default "" (config !! "ssl_cert") in
  let key := default "" (config !! "ssl_key") in
  if (0 <? String.length cert)%nat && (0 <? String.length key)%nat
  then (true, [])
  else if (0 <? String.length cert)%nat || (0 <? String.length key)%nat
       then (false, ["Only some of the ssl configurations have been set"])
       else (false, []).

(** What [create_data_and_log_dirs] does to the machine, in order. *)
Inductive DirEffect : Type :=
| Warning (msg : string)
| Info (msg : string)
| Makedirs (path : string) (mode : Z)
| ChownDir (path user group : string)
| CheckCall (cmd : list string)
| Mount (device mountpoint : string) (options : option string)
        (persist : bool) (filesystem : string).

(** The outcome of each operation on the machine: [None] when it succeeds,
    the exception otherwise.  Logging cannot fail. *)
Definition DirHost : Type := DirEffect -> option exn.

(** Computations that record their effects and may raise. *)
Definition T (A : Type) : Type := list DirEffect -> result A * list DirEffect.

Definition tret {A} (a : A) : T A := fun tr => (Returned a, tr).
Definition traise {A} (e : exn) : T A := fun tr => (Raised e, tr).
Definition tbind {A B} (m : T A) (k : A -> T B) : T B :=
  fun tr => match m tr with
            | (Returned a, tr') => k a tr'
            | (Raised e, tr') => (Raised e, tr')
            end.

Definition say (e : DirEffect) : T unit := fun tr => (Returned tt, tr ++ [e]).

Definition perform (host : DirHost) (e : DirEffect) : T unit :=
  fun tr => (match host e with
             | None => Returned tt
             | Some x => Raised x
             end, tr ++ [e]).

(** [self.config[key]] *)
Definition config_item (config : gmap string string) (key : string) : T string :=
  match config !! key with
  | Some v => tret v
  | None => traise (KeyError key)
  end.

(** [len(x or "") == 0] for a string or [None]. *)
Definition no_text (x : option string) : bool :=
  (String.length (default "" x) =? 0)%nat.

(** [len(d or "") == 0] for a dictionary or [None]. *)
Definition no_items (d : option (list (string * string))) : bool :=
  (length (default [] d) =? 0)%nat.

(** [for k, v in d.items(): fs = k; dev = v], from the values before. *)
Definition last_item (d : list (string * string))
  (before : option string * option string) : option string * option string :=
  foldl (fun _ kv => (Some kv.1, Some kv.2)) before d.

(** Format and mount one device: the [else] branch of both device blocks. *)
Definition format_and_mount (host : DirHost) (config : gmap string string)
  (fs dev : option string) (mountpoint : string) : T unit :=
  tbind (say (Info ("Data log device: mkfs -t " +:+ default "None" fs))) (fun _ =>
  match fs, dev with
  | Some fs', Some dev' =>
      tbind (perform host (CheckCall ["mkfs"; "-t"; fs'; dev'])) (fun _ =>
      perform host (Mount dev' mountpoint (config !! "fs-options") true fs'))
  | _, _ => traise TypeError
  end).

(** [create_data_and_log_dirs]; [0o750] is 488.  The device mappings are
    dictionaries in insertion order. *)
Definition create_data_and_log_dirs (host : DirHost)
  (config : gmap string string)
  (data_log_dev data_dev : option (list (string * string)))
  (data_log_dir data_dir : option string)
  (data_log_fs data_fs user group : string) (fs_options : option string)
  : T unit :=
  if no_text data_log_dir then say (Warning "Data log dir config empty")
  else if no_text data_dir then say (Warning "Data dir config empty")
  else
    let log_dir := default "" data_log_dir in
    let dir := default "" data_dir in
    tbind (perform host (Makedirs log_dir 488)) (fun _ =>
    tbind (config_item config "user") (fun u =>
    tbind (config_item config "group") (fun g =>
    tbind (perform host (ChownDir log_dir u g)) (fun _ =>
    tbind (perform host (Makedirs dir 488)) (fun _ =>
    tbind (config_item config "user") (fun u' =>
    tbind (config_item config "group") (fun g' =>
    tbind (perform host (ChownDir dir u' g')) (fun _ =>
    let start : option string * option string := (None, None) in
    tbind (if no_items data_log_dev
           then tbind (say (Warning "Data log device not found, using rootfs instead"))
                      (fun _ => tret start)
           else let p := last_item (default [] data_log_dev) start in
                tbind (format_and_mount host config p.1 p.2 log_dir)
                      (fun _ => tret p)) (fun p =>
    if no_items data_dev
    then say (Warning "Data device not found, using rootfs instead")
    else let q := last_item (default [] data_dev) p in
         format_and_mount host config q.1 q.2 dir))))))))).

(** A machine operation that formats or mounts. *)
Definition touches_device (e : DirEffect) : bool :=
  match e with
  | CheckCall _ | Mount _ _ _ _ _ => true
  | _ => false
  end.

(** A machine operation that changes something (everything but logging). *)
Definition changes_machine (e : DirEffect) : bool :=
  match e with
  | Warning _ | Info _ => false
  | _ => true
  end.

(** The overridable feature tests of the charm ([is_ssl_enabled],
    [is_sasl_kerberos_enabled], ...); the base class answers [False] to
    all of them. *)
Record Features : Type := mkFeatures {
  ssl_enabled : bool;
  sasl_kerberos_enabled : bool;
  sasl_digest_enabled : bool;
  jolokia_enabled : bool;
  jmxexporter_enabled : bool
}.

Definition base_features : Features := mkFeatures false false false false false.

(** The arguments of the one call to [render]. *)
Record RenderCall : Type := mkRenderCall {
  render_source : string;
  render_target : string;
  render_owner : option string;
  render_group : option string;
  render_perms : Z;
  service_unit_overrides : gmap string (option string);
  service_overrides : gmap string (option string);
  service_environment_overrides : gmap string (option string)
}.

Definition KAFKA_OPTS : string := "KAFKA_OPTS".

(** One of the four blocks that extend KAFKA_OPTS: a separating space when
    the value is not empty, then the option.  A null value has no [len]. *)
Definition add_opt (opt : string) (env : gmap string (option string))
  : result (gmap string (option string)) :=
  match env !! KAFKA_OPTS with
  | None => Raised (KeyError KAFKA_OPTS)
  | Some None => Raised TypeError
  | Some (Some cur) =>
      let cur' := if (0 <? String.length cur)%nat then cur +:+ " " else cur in
      Returned (<[KAFKA_OPTS := Some (cur' +:+ opt)]> env)
  end.

Definition opt_tls : string := "-Djdk.tls.ephemeralDHKeySize=2048".
Definition opt_jaas : string :=
  "-Djava.security.auth.login.config=" +:+ "/etc/kafka/jaas.conf".
Definition opt_jolokia : string :=
  "-javaagent:/opt/jolokia/jolokia.jar=" +:+
  "config=/etc/kafka/jolokia.properties".
Definition opt_jmx (config : gmap string string) (jmx_file_name : string)
  : string :=
  "-javaagent:/opt/prometheus/jmx_prometheus_javaagent.jar=" +:+
  default "8079" (config !! "jmx-exporter-port") +:+ ":/opt/prometheus/" +:+
  jmx_file_name +:+ ".yml".

(** [render_service_override_file]: the call to [render] it ends with.
    [safe_load] is [yaml.safe_load], giving [None] for an empty document
    and otherwise a mapping whose values are text or null. *)
Definition render_service_override_file
  (safe_load : string -> result (option (gmap string (option string))))
  (feat : Features) (config : gmap string string)
  (target jmx_file_name : string) : result RenderCall :=
  bind (safe_load (default "" (config !! "service-unit-overrides"))) (fun su =>
  bind (safe_load (default "" (config !! "service-overrides"))) (fun so =>
  bind (safe_load (default "" (config !! "service-environment-overrides"))) (fun se =>
  bind (match se with
        | None => Raised TypeError
        | Some env =>
            Returned (if bool_decide (is_Some (env !! KAFKA_OPTS)) then env
                      else <[KAFKA_OPTS := Some ""]> env)
        end) (fun env =>
  bind (if ssl_enabled feat then add_opt opt_tls env else Returned env) (fun env =>
  bind (if sasl_kerberos_enabled feat || sasl_digest_enabled feat
        then add_opt opt_jaas env else Returned env) (fun env =>
  bind (if jolokia_enabled feat then add_opt opt_jolokia env
        else Returned env) (fun env =>
  bind (if jmxexporter_enabled feat
        then add_opt (opt_jmx config jmx_file_name) env
        else Returned env) (fun env =>
  bind (match env !! KAFKA_OPTS with
        | None => Returned env
        | Some None => Raised TypeError
        | Some (Some v) =>
            Returned (if (String.length v =? 0)%nat then delete KAFKA_OPTS env
                      else env)
        end) (fun env =>
  let so' :=
    match so with
    | None => ∅
    | Some d =>
        if bool_decide (d = ∅) then d
        else if bool_decide (is_Some (d !! default "" (config !! "user")))
                && bool_decide (is_Some (d !! default "" (config !! "group")))
             then <["Group" := config !! "group"]>
                    (<["User" := config !! "user"]> d)
             else d
    end in
  Returned (mkRenderCall "kafka_override.conf.j2" target
              (config !! "user") (config !! "group") 420
              (default ∅ su) so' env)))))))))).

(** The options the enabled features add to KAFKA_OPTS, in order. *)
Definition kafka_opts_parts (feat : Features) (config : gmap string string)
  (jmx_file_name : string) : list string :=
  (if ssl_enabled feat then [opt_tls] else []) ++
  (if sasl_kerberos_enabled feat || sasl_digest_enabled feat
   then [opt_jaas] else []) ++
  (if jolokia_enabled feat then [opt_jolokia] else []) ++
  (if jmxexporter_enabled feat then [opt_jmx config jmx_file_name] else []).

(** A text that is not empty. *)
Definition nonempty (s : string) : Prop := s <> "".

(** One block of [render_service_override_file] on the text of KAFKA_OPTS. *)
Definition glue (cur opt : string) : string :=
  (if (0 <? String.length cur)%nat then cur +:+ " " else cur) +:+ opt.

End Kafka.

(** ** Concrete scenarios *)

Module Scenario.

(** A service manager whose calls all succeed. *)
Definition always_ok : ServiceManager := fun _ _ => Returned true.

(** A service manager whose reload reports failure by its status. *)
Definition reload_fails : ServiceManager :=
  fun _ c => match c with
             | ServiceReload _ => Returned false
             | _ => Returned true
             end.

(** A service manager whose restart raises. *)
Definition restart_raises : ServiceManager :=
  fun _ c => match c with
             | ServiceRestart _ => Raised (External "CalledProcessError")
             | _ => Returned true
             end.

Definition broker_event : RestartEvent.t :=
  RestartEvent.mk "restart_event" "{}" ["broker"].


(** Two members ask for the lock; the leader [kafka/2] has evaluated. *)
Definition two_requests : World :=
  Cluster.run [Cluster.Request "kafka/0" "restart";
               Cluster.Request "kafka/1" "restart";
               Cluster.Resume "kafka/2" true] init.

(** A chain of a leaf certificate and two CA certificates. *)
Definition pem (body : string) : string :=
  JavaSsl.BEGIN_CERTIFICATE +:+ body +:+ JavaSsl.nl +:+ JavaSsl.END_CERTIFICATE.

Definition three_certificates : string :=
  pem "CERT" +:+ pem "CA1" +:+ pem "CA2".

(** External commands that succeed and touch no file. *)
Definition quiet_shell : JavaSsl.Shell := fun _ => JavaSsl.ret tt.

(** A file system on which both stores already exist. *)
Definition stores_exist : gmap string JavaSsl.File :=
  <["/etc/kafka/keystore.p12" := JavaSsl.mkFile "KS" "kafka" "kafka" 416]>
    (<["/etc/kafka/truststore.p12" := JavaSsl.mkFile "TS" "kafka" "kafka" 416]> ∅).

(** A host whose commands all succeed. *)
Definition host_ok : Kafka.Host :=
  Kafka.mkHost (fun _ => Returned "KEY") (fun _ _ => Returned tt)
               (Returned tt) (fun _ => Returned tt).

(** External tools: [openssl] writes the PKCS12 bundle, the others
    succeed without touching a file. *)
Definition tools : JavaSsl.Shell :=
  fun cmd => match cmd with
             | "openssl" :: _ => JavaSsl.write_file JavaSsl.tmp_p12 "PKCS12"
             | _ => JavaSsl.ret tt
             end.

(** Tools whose every command fails and writes nothing. *)
Definition broken_tools : JavaSsl.Shell :=
  fun _ => JavaSsl.raise (External "CalledProcessError").

(** Forty-eight random bytes, here all zero. *)
Definition zero_bytes : nat -> list ascii := fun n => replicate n "000"%char.

(** A machine on which every operation succeeds. *)
Definition machine_ok : Kafka.DirHost := fun _ => None.

(** A charm configuration with the user and group of the service. *)
Definition kafka_config : gmap string string :=
  <["user" := "cp-kafka"]> (<["group" := "confluent"]> ∅).

(** A YAML loader that knows the empty document and one mapping. *)
Definition yaml_loader
  : string -> result (option (gmap string (option string))) :=
  fun text => if decide (text = "") then Returned None
              else Returned (Some {["KAFKA_OPTS" := Some "-Xmx1g"]}).

End Scenario.

(** * Properties *)

(** ** Strings *)

Example split_empty : split "," "" = [""].
Proof. reflexivity. Qed.

Example split_two : split "," "kafka,zookeeper" = ["kafka"; "zookeeper"].
Proof. reflexivity. Qed.

Example split_long_separator : split "--" "a--b-c--" = ["a"; "b-c"; ""].
Proof. reflexivity. Qed.

Example join_three : join "," ["a"; "b"; "c"] = "a,b,c".
Proof. reflexivity. Qed.

Section strings.

Let comma : ascii := ","%char.

Lemma app_cons (a : ascii) (s t : string) :
  String a s +:+ t = String a (s +:+ t).
Proof. reflexivity. Qed.

Lemma app_nil_l (t : string) : "" +:+ t = t.
Proof. reflexivity. Qed.

Lemma app_snoc (cur : string) (a : ascii) (x : string) :
  (cur +:+ String a "") +:+ x = cur +:+ String a x.
Proof.
  induction cur as [|b cur IH]; [done |].
  rewrite !app_cons. by f_equal.
Qed.

Lemma app_empty_r (s : string) : s +:+ "" = s.
Proof.
  induction s as [|a s IH]; [done |]. rewrite app_cons. by f_equal.
Qed.

Lemma count_char_app (c : ascii) (s t : string) :
  count_char c (s +:+ t) = count_char c s + count_char c t.
Proof.
  induction s as [|a s IH]; [done |].
  rewrite app_cons. simpl. rewrite IH. lia.
Qed.

Lemma count_zero_contains (c : ascii) (s : string) :
  count_char c s = 0 <-> contains_char c s = false.
Proof.
  induction s as [|a s IH]; simpl; [done |].
  destruct (Ascii.eqb a c); simpl; [split; [lia | done] | exact IH].
Qed.

Lemma startswith_comma (c : ascii) (s : string) :
  startswith "," (String c s) = Ascii.eqb c comma.
Proof.
  unfold comma. cbn [startswith].
  rewrite andb_true_r. apply Ascii.eqb_sym.
Qed.

Lemma split_aux_step (cur : string) (c : ascii) (s : string) :
  split_aux "," 0 cur (String c s) =
  if Ascii.eqb c comma then cur :: split_aux "," 0 "" s
  else split_aux "," 0 (cur +:+ String c "") s.
Proof.
  change (split_aux "," 0 cur (String c s))
    with (if startswith "," (String c s)
          then cur :: split_aux "," 0 "" s
          else split_aux "," 0 (cur +:+ String c "") s).
  by rewrite startswith_comma.
Qed.

Lemma split_aux_plain (cur x : string) :
  count_char comma x = 0 -> split_aux "," 0 cur x = [cur +:+ x].
Proof.
  revert cur; induction x as [|a x IH]; intros cur Hx.
  - by rewrite app_empty_r.
  - rewrite split_aux_step. simpl in Hx.
    destruct (Ascii.eqb a comma); [lia |].
    rewrite IH by done. by rewrite app_snoc.
Qed.

Lemma split_aux_cut (cur x r : string) :
  count_char comma x = 0 ->
  split_aux "," 0 cur (x +:+ "," +:+ r) = (cur +:+ x) :: split_aux "," 0 "" r.
Proof.
  revert cur; induction x as [|a x IH]; intros cur Hx.
  - rewrite app_nil_l, app_cons, split_aux_step. by rewrite app_empty_r.
  - rewrite app_cons, split_aux_step. simpl in Hx.
    destruct (Ascii.eqb a comma); [lia |].
    rewrite IH by done. by rewrite app_snoc.
Qed.

Lemma length_split_aux (cur s : string) :
  length (split_aux "," 0 cur s) = S (count_char comma s).
Proof.
  revert cur; induction s as [|a s IH]; intros cur; [done |].
  rewrite split_aux_step. simpl.
  destruct (Ascii.eqb a comma); simpl; by rewrite IH.
Qed.

(** Commas in [",".join(l)]: those of the elements plus the separators. *)
Lemma count_join (l : list string) :
  count_char comma (join "," l) + 1 =
  foldr (fun x n => count_char comma x + n) 0 l + length l
  \/ l = [].
Proof.
  induction l as [|x l IH]; [by right | left].
  destruct IH as [IH | ->]; [| simpl; lia].
  destruct l as [|y l]; [simpl in *; lia |].
  change (join "," (x :: y :: l)) with (x +:+ "," +:+ join "," (y :: l)).
  rewrite !count_char_app.
  change (count_char comma ",") with 1.
  simpl foldr in *. simpl length in *. lia.
Qed.

(** [split] undoes [join] on a non-empty list of comma-free names. *)
Lemma split_join (l : list string) :
  l <> [] -> Forall (fun x => contains_char comma x = false) l ->
  split "," (join "," l) = l.
Proof.
  unfold split. induction l as [|x l IH]; [done |]. intros _ Hl.
  apply Forall_cons in Hl as [Hx Hl]. apply count_zero_contains in Hx.
  destruct l as [|y l].
  - simpl. by rewrite split_aux_plain.
  - change (join "," (x :: y :: l)) with (x +:+ "," +:+ join "," (y :: l)).
    rewrite split_aux_cut by done. rewrite app_nil_l. f_equal. by apply IH.
Qed.

(** If [split] gives the list back, no name held a comma. *)
Lemma split_join_inv (l : list string) :
  split "," (join "," l) = l ->
  l <> [] /\ Forall (fun x => contains_char comma x = false) l.
Proof.
  intros Heq.
  assert (Hlen : length l = S (count_char comma (join "," l))).
  { rewrite <- Heq at 1. apply length_split_aux. }
  destruct (count_join l) as [Hc | ->]; [| done].
  split; [by intros -> |].
  assert (Hsum : foldr (fun x n => count_char comma x + n) 0 l = 0) by lia.
  clear -Hsum. induction l as [|x l IH]; [constructor |].
  simpl in Hsum. constructor.
  - apply count_zero_contains. lia.
  - apply IH. lia.
Qed.

End strings.

(** ** [RestartEvent]: context and snapshot *)

Lemma restore_snapshot (self e : RestartEvent.t) :
  RestartEvent.restore self (RestartEvent.snapshot e) =
  Returned (RestartEvent.mk (RestartEvent.handle self) (RestartEvent._ctx e)
              (split "," (join "," (RestartEvent._svc e)))).
Proof.
  unfold RestartEvent.restore, RestartEvent.snapshot.
  rewrite lookup_insert_eq.
  rewrite lookup_insert_ne by done. by rewrite lookup_insert_eq.
Qed.

(** C10: restoring a snapshot keeps the context; it gives the services list
    back exactly when the list is non-empty and no name holds a comma; an
    empty list comes back as the one-element list of the empty string. *)
Theorem snapshot_restore_roundtrip (self e : RestartEvent.t) :
  exists e',
    RestartEvent.restore self (RestartEvent.snapshot e) = Returned e' /\
    RestartEvent.ctx e' = RestartEvent.ctx e /\
    (RestartEvent.svc e' = RestartEvent.svc e <->
       RestartEvent.svc e <> [] /\
       Forall (fun s => contains_char "," s = false) (RestartEvent.svc e)) /\
    (RestartEvent.svc e = [] -> RestartEvent.svc e' = [""]).
Proof.
  eexists. split; [apply restore_snapshot |].
  unfold RestartEvent.ctx, RestartEvent.svc; simpl.
  split; [done |]. split.
  - split; [apply split_join_inv | intros [? ?]; by apply split_join].
  - by intros ->.
Qed.

(** C6 as the code has it: the accessor gives the JSON text of the supplied
    context, a string and never the dictionary, whatever [json.dumps]
    produces; the handle and the services are carried as supplied. *)
Theorem ctx_accessor_serialized (dumps : value -> string) (handle : string)
  (ctx : value) (services : list string) :
  let e := RestartEvent.__init__ dumps handle ctx services in
  RestartEvent.ctx e = VStr (dumps ctx) /\
  (forall d, RestartEvent.ctx e <> VDict d) /\
  RestartEvent.svc e = services.
Proof. by cbn. Qed.

(** C6 as stated fails: for the empty dictionary the accessor gives the
    string "{}" and not the dictionary. *)
Lemma ctx_accessor_not_identity :
  RestartEvent.ctx
    (RestartEvent.__init__ (fun _ => "{}") "restart_event" (VDict []) [])
  <> VDict [].
Proof. discriminate. Qed.

(** ** The coordinator: frame lemmas *)

Section coordinator.

Implicit Types (w : World) (L : Ledger) (unit l : string).

Lemma mem_set_memory unit u L w :
  mem (set_memory unit L w) u = if decide (unit = u) then L else mem w u.
Proof.
  unfold mem, set_memory; simpl.
  destruct (decide (unit = u)) as [-> | Hne].
  - by rewrite lookup_insert_eq.
  - by rewrite lookup_insert_ne.
Qed.

Lemma mem_note unit (p : Primitive) u w : mem (note unit p w) u = mem w u.
Proof. done. Qed.

Lemma holds_spec L unit l :
  holds L unit l = true <-> grants L !! l = Some unit /\ l ∉ released L.
Proof. unfold holds. apply bool_decide_eq_true. Qed.

Lemma ledger_eta L : mkLedger (grants L) (released L) (requests L) = L.
Proof. by destruct L. Qed.

(** A lock that is held and not released survives the policy, whichever
    lock name the policy is run for. *)
Lemma grant_policy_keeps l' L l unit :
  grants L !! l = Some unit -> l ∉ released L ->
  grants (grant_policy l' L) !! l = Some unit /\
  l ∉ released (grant_policy l' L).
Proof.
  intros Hg Hr. unfold grant_policy.
  case_bool_decide as Hheld; [done |].
  destruct (take_first l' (requests L)) as [[r q] |]; [| done].
  assert (l' <> l) as Hne.
  { intros Heq; subst l'. apply Hheld. split; [by exists unit | done]. }
  simpl. rewrite lookup_insert_ne by done. split; [done |].
  intros [Hin _]%elem_of_difference. done.
Qed.

Lemma foldl_grant_policy_keeps (rs : list Request) L l unit :
  grants L !! l = Some unit -> l ∉ released L ->
  let L' := foldl (fun acc r => grant_policy (lock r) acc) L rs in
  grants L' !! l = Some unit /\ l ∉ released L'.
Proof.
  revert L. induction rs as [|r rs IH]; intros L Hg Hr; [done |].
  simpl. destruct (grant_policy_keeps (lock r) L l unit Hg Hr) as [Hg' Hr'].
  by apply IH.
Qed.

Lemma evaluate_keeps L l unit :
  grants L !! l = Some unit -> l ∉ released L ->
  grants (evaluate L) !! l = Some unit /\ l ∉ released (evaluate L).
Proof. apply foldl_grant_policy_keeps. Qed.

(** Taking the first request for [l] leaves the requests for other locks. *)
Lemma take_first_other l l0 (q : list Request) r q' :
  take_first l q = Some (r, q') -> l <> l0 ->
  filter (fun x => lock x = l0) q' = filter (fun x => lock x = l0) q.
Proof.
  revert r q'. induction q as [|x q IH]; intros r q' Ht Hne; [done |].
  simpl in Ht. destruct (decide (lock x = l)) as [Hx | Hx].
  - inversion Ht; subst. rewrite filter_cons_False; [done | congruence].
  - destruct (take_first l q) as [[r1 q1] |] eqn:Hq; [| done].
    inversion Ht; subst. rewrite !filter_cons.
    rewrite (IH r q1) by done. done.
Qed.

Lemma grant_policy_queue l' L l unit :
  grants L !! l = Some unit -> l ∉ released L ->
  filter (fun x => lock x = l) (requests (grant_policy l' L)) =
  filter (fun x => lock x = l) (requests L).
Proof.
  intros Hg Hr. unfold grant_policy.
  case_bool_decide as Hheld; [done |].
  destruct (take_first l' (requests L)) as [[r q] |] eqn:Ht; [| done].
  assert (l' <> l) as Hne.
  { intros Heq; subst l'. apply Hheld. split; [by exists unit | done]. }
  simpl. by eapply take_first_other.
Qed.

Lemma foldl_grant_policy_queue (rs : list Request) L l unit :
  grants L !! l = Some unit -> l ∉ released L ->
  filter (fun x => lock x = l)
    (requests (foldl (fun acc r => grant_policy (lock r) acc) L rs)) =
  filter (fun x => lock x = l) (requests L).
Proof.
  revert L. induction rs as [|r rs IH]; intros L Hg Hr; [done |].
  simpl. destruct (grant_policy_keeps (lock r) L l unit Hg Hr) as [Hg' Hr'].
  rewrite IH by done. by eapply grant_policy_queue.
Qed.

(** The loop of [restart] is the planned sequence of calls. *)
Lemma restart_services_flat sm (services : list string) w :
  RestartEvent.restart_services sm services w =
  RestartEvent.run_calls sm (RestartEvent.plan services) w.
Proof.
  revert w. induction services as [|ev rest IH]; intros w; [done |].
  cbn [RestartEvent.restart_services RestartEvent.plan flat_map app
       RestartEvent.run_calls].
  destruct (RestartEvent.invoke sm (ServiceResume ev) w) as [[[]|e1] w1];
    [| done].
  destruct (RestartEvent.invoke sm (ServiceReload ev) w1) as [[[]|e2] w2];
    [| done].
  destruct (RestartEvent.invoke sm (ServiceRestart ev) w2) as [[[]|e3] w3];
    [| done].
  apply IH.
Qed.

Lemma set_calls_set_calls cs cs' w :
  set_calls cs (set_calls cs' w) = set_calls cs w.
Proof. done. Qed.

Lemma set_calls_id w : set_calls (calls w) w = w.
Proof. by destruct w. Qed.

(** A sequence of calls touches nothing but the call log. *)
Lemma run_calls_frame sm (cs : list Call) w :
  exists done, (RestartEvent.run_calls sm cs w).2 = set_calls (calls w ++ done) w.
Proof.
  revert w. induction cs as [|c cs IH]; intros w.
  - exists []. simpl. by rewrite app_nil_r, set_calls_id.
  - simpl. destruct (sm (calls w) c) as [b | e].
    + destruct (IH (log_call c (Returned b) w)) as [done ->].
      exists ((c, Returned b) :: done). unfold log_call; simpl.
      by rewrite set_calls_set_calls, <- app_assoc.
    + by exists [(c, Raised e)].
Qed.

(** With a service manager that never raises, every call of the sequence
    is made, in order. *)
Lemma run_calls_returns sm (cs : list Call) w :
  (forall h c, exists b, sm h c = Returned b) ->
  exists done,
    RestartEvent.run_calls sm cs w = (Returned tt, set_calls (calls w ++ done) w) /\
    done.*1 = cs.
Proof.
  intros Hsm. revert w. induction cs as [|c cs IH]; intros w.
  - exists []. simpl. by rewrite app_nil_r, set_calls_id.
  - simpl. destruct (Hsm (calls w) c) as [b ->].
    destruct (IH (log_call c (Returned b) w)) as (done & -> & Hdone).
    exists ((c, Returned b) :: done). split.
    + unfold log_call; simpl. by rewrite set_calls_set_calls, <- app_assoc.
    + by rewrite fmap_cons, Hdone.
Qed.

(** A sequence of calls never ends with a returned [False]: it ends
    normally, or with the exception of its last call. *)
Lemma run_calls_raised sm (cs : list Call) w e :
  (RestartEvent.run_calls sm cs w).1 = Raised e ->
  exists done c,
    (RestartEvent.run_calls sm cs w).2 =
      set_calls (calls w ++ done ++ [(c, Raised e)]) w.
Proof.
  revert w. induction cs as [|c cs IH]; intros w Hr; [done |].
  simpl in *. destruct (sm (calls w) c) as [b | e'].
  - destruct (IH _ Hr) as (done & c' & ->).
    exists ((c, Returned b) :: done), c'. unfold log_call; simpl.
    by rewrite set_calls_set_calls, <- app_assoc.
  - simpl in Hr. inversion Hr; subst. by exists [], c.
Qed.


(** *** [_release_granted] and [_save_state] *)

Lemma release_granted_mem unit u w :
  mem (_release_granted unit w) u =
  if decide (unit = u)
  then mkLedger (filter (fun kv => ¬ held_by (mem w unit) unit kv)
                        (grants (mem w unit)))
                (released (mem w unit)) (requests (mem w unit))
  else mem w u.
Proof. unfold _release_granted. by rewrite mem_note, mem_set_memory. Qed.

Lemma release_granted_released unit l w :
  l ∈ released (ledger (_release_granted unit w)) <->
  l ∈ released (ledger w) \/ acquire unit l w = true.
Proof.
  unfold _release_granted, acquire; simpl.
  rewrite elem_of_union, elem_of_dom, holds_spec.
  apply or_iff_compat_l. split.
  - intros [h [Hg [Hh Hr]]%map_lookup_filter_Some]. simpl in *. by subst.
  - intros [Hg Hr]. exists unit. by apply map_lookup_filter_Some.
Qed.

Lemma release_granted_acquire unit l w :
  acquire unit l (_release_granted unit w) = false.
Proof.
  unfold acquire. rewrite release_granted_mem, decide_True by done.
  apply not_true_is_false. rewrite holds_spec. simpl.
  intros [[Hg Hnot]%map_lookup_filter_Some Hr]. apply Hnot. by split.
Qed.

(** Releasing when nothing is held changes neither Ledger. *)
Lemma release_granted_noop unit w :
  (forall l, acquire unit l w = false) ->
  ledger (_release_granted unit w) = ledger w /\
  forall u, mem (_release_granted unit w) u = mem w u.
Proof.
  intros Hfree.
  assert (Hnone : forall l h, grants (mem w unit) !! l = Some h ->
                              ¬ held_by (mem w unit) unit (l, h)).
  { intros l h Hg [Hh Hr]. simpl in *. subst h.
    specialize (Hfree l). unfold acquire in Hfree.
    apply not_true_iff_false in Hfree. apply Hfree, holds_spec. by split. }
  split.
  - unfold _release_granted; simpl.
    replace (filter (held_by (mem w unit) unit) (grants (mem w unit)))
      with (∅ : gmap string string).
    + rewrite dom_empty_L, (right_id_L ∅ (∪)). apply ledger_eta.
    + symmetry. apply map_empty_filter_2. intros l h Hg. by apply Hnone.
  - intros u. rewrite release_granted_mem.
    destruct (decide (unit = u)) as [<- |]; [| done].
    rewrite map_filter_id by exact Hnone. apply ledger_eta.
Qed.

Lemma save_state_durable unit w :
  durable (_save_state unit w) !! unit = Some (mem (_save_state unit w) unit).
Proof. unfold _save_state, set_durable; simpl. by rewrite lookup_insert_eq. Qed.

(** *** The view invariant *)

Lemma views_agree_ext w w' :
  ledger w = ledger w' -> memory w = memory w' ->
  Cluster.views_agree w -> Cluster.views_agree w'.
Proof.
  intros HL HM Hw unit l. unfold acquire, mem. rewrite <- HM, <- HL.
  apply Hw.
Qed.

Lemma views_agree_init : Cluster.views_agree init.
Proof. intros unit l. unfold acquire, mem, init; simpl. by rewrite lookup_empty. Qed.

Lemma views_agree_request unit l w :
  Cluster.views_agree w -> Cluster.views_agree (request unit l w).
Proof. intros Hw u l'. apply Hw. Qed.

Lemma views_agree_initialize unit w :
  Cluster.views_agree w -> Cluster.views_agree (initialize unit w).
Proof.
  intros Hw u l. unfold acquire, initialize. rewrite mem_note, mem_set_memory.
  destruct (decide (unit = u)) as [<- |]; [| apply Hw].
  apply holds_spec.
Qed.

Lemma views_agree_handle unit b w :
  Cluster.views_agree w -> Cluster.views_agree (handle unit b w).
Proof.
  intros Hw. destruct b; [| exact Hw]. intros u l. unfold handle, acquire.
  rewrite mem_note, mem_set_memory.
  destruct (decide (unit = u)) as [<- |]; [apply holds_spec |].
  intros Hu. destruct (Hw u l Hu) as [Hg Hr]. simpl.
  by apply evaluate_keeps.
Qed.

Lemma views_agree_release_granted unit w :
  Cluster.views_agree w -> Cluster.views_agree (_release_granted unit w).
Proof.
  intros Hw u l Hu.
  destruct (decide (unit = u)) as [<- | Hne].
  { by rewrite release_granted_acquire in Hu. }
  assert (Hu' : acquire u l w = true).
  { unfold acquire in *. by rewrite release_granted_mem, decide_False in Hu. }
  destruct (Hw u l Hu') as [Hg Hr]. split; [done |].
  rewrite release_granted_released. intros [? | Hmine]; [done |].
  destruct (Hw unit l Hmine) as [Hg' _]. congruence.
Qed.

Lemma views_agree_resume unit b w :
  Cluster.views_agree w -> Cluster.views_agree (OpsCoordinator.resume unit b w).
Proof. intros Hw. by apply views_agree_handle, views_agree_initialize. Qed.

Lemma views_agree_release unit w :
  Cluster.views_agree w -> Cluster.views_agree (OpsCoordinator.release unit w).
Proof.
  intros Hw. unfold OpsCoordinator.release.
  eapply views_agree_ext; [| | by apply (views_agree_release_granted unit)]; done.
Qed.

Lemma views_agree_restart sm unit b ev w :
  Cluster.views_agree w ->
  Cluster.views_agree (RestartEvent.restart sm unit b ev w).2.
Proof.
  intros Hw. unfold RestartEvent.restart.
  pose proof (views_agree_resume unit b w Hw) as H1.
  destruct (acquire unit "restart" _); [| by apply views_agree_release].
  rewrite restart_services_flat.
  destruct (run_calls_frame sm (RestartEvent.plan (RestartEvent.svc ev))
              (OpsCoordinator.resume unit b w)) as [done Hdone].
  assert (H2 : Cluster.views_agree
                 (RestartEvent.run_calls sm
                    (RestartEvent.plan (RestartEvent.svc ev))
                    (OpsCoordinator.resume unit b w)).2).
  { rewrite Hdone. eapply views_agree_ext; [| | exact H1]; done. }
  destruct (RestartEvent.run_calls _ _ _) as [[[]|e] w2]; simpl in *;
    [by apply views_agree_release | done].
Qed.

Lemma views_agree_step w (a : Cluster.Action) :
  Cluster.views_agree w -> Cluster.views_agree (Cluster.step w a).
Proof.
  intros Hw. destruct a as [u l | u b | u | u b | sm u b ev]; simpl.
  - by apply views_agree_request.
  - by apply views_agree_resume.
  - by apply views_agree_release.
  - unfold OpsCoordinator.handle_locks. destruct (negb b); [done |].
    by apply views_agree_release, views_agree_resume.
  - by apply views_agree_restart.
Qed.

Lemma views_agree_run (acts : list Cluster.Action) w :
  Cluster.views_agree w -> Cluster.views_agree (Cluster.run acts w).
Proof.
  revert w. induction acts as [|a acts IH]; intros w Hw; [done |].
  apply IH. by apply views_agree_step.
Qed.

End coordinator.

(** ** The restart lock *)

(** C1: in every state the peer group can reach by request, resume (with the
    leader's grant evaluation), release, handle_locks and restart steps, two
    members that both observe [acquire("restart")] are the same member; and
    a leader's resume leaves a held, unreleased lock with its holder and
    leaves the queue for that lock as it was. *)
Theorem mutual_exclusion (acts : list Cluster.Action) (u1 u2 : string) :
  let w := Cluster.run acts init in
  (acquire u1 "restart" w = true -> acquire u2 "restart" w = true -> u1 = u2) /\
  (forall leader h,
     grants (ledger w) !! "restart" = Some h ->
     "restart" ∉ released (ledger w) ->
     let w' := OpsCoordinator.resume leader true w in
     grants (ledger w') !! "restart" = Some h /\
     ("restart" ∉ released (ledger w')) /\
     filter (fun x => lock x = "restart") (requests (ledger w')) =
     filter (fun x => lock x = "restart") (requests (ledger w))).
Proof.
  intros w. split.
  - intros H1 H2.
    pose proof (views_agree_run acts init views_agree_init) as Hw.
    destruct (Hw u1 "restart" H1) as [Hg1 _].
    destruct (Hw u2 "restart" H2) as [Hg2 _].
    fold w in Hg1, Hg2. congruence.
  - intros leader h Hg Hr w'.
    destruct (evaluate_keeps (ledger w) "restart" h Hg Hr) as [Hg' Hr'].
    repeat split; [exact Hg' | exact Hr' |].
    by apply (foldl_grant_policy_queue _ _ _ h).
Qed.

Lemma mutual_exclusion_witness :
  let acts := [Cluster.Request "kafka/0" "restart";
               Cluster.Request "kafka/1" "restart";
               Cluster.Resume "kafka/0" true] in
  let w := Cluster.run acts init in
  acquire "kafka/0" "restart" w = true /\
  ("kafka/0" = "kafka/0") /\
  grants (ledger (OpsCoordinator.resume "kafka/1" true w)) !! "restart"
    = Some "kafka/0".
Proof.
  intros acts w.
  destruct (mutual_exclusion acts "kafka/0" "kafka/0") as [Hmutex Hkeep].
  split; [reflexivity |]. split.
  - apply Hmutex; reflexivity.
  - apply (Hkeep "kafka/1" "kafka/0").
    + reflexivity.
    + apply (bool_decide_unpack _). vm_compute. exact I.
Defined.

(** The scenario of the spec: A and B both ask, A first; the leader grants
    A, whose [restart] runs the three actions on the broker once and
    releases; B is refused in that cycle and granted in the next. *)
Example scenario_fifo :
  let sm := Scenario.always_ok in
  let ev := Scenario.broker_event in
  let rA := RestartEvent.restart sm "kafka/0" false ev Scenario.two_requests in
  let rB := RestartEvent.restart sm "kafka/1" false ev rA.2 in
  let next := OpsCoordinator.handle_locks "kafka/2" true rB.2 in
  let rB' := RestartEvent.restart sm "kafka/1" false ev next in
  rA.1 = Returned true /\
  (calls rA.2).*1 = [ServiceResume "broker"; ServiceReload "broker";
                     ServiceRestart "broker"] /\
  rB.1 = Returned false /\ calls rB.2 = calls rA.2 /\
  rB'.1 = Returned true.
Proof. vm_compute. repeat split. Qed.

(** The state in the middle of a [restart], where the member checks
    [acquire], is itself a reachable state. *)
Lemma restart_checks_reachable_state (acts : list Cluster.Action) unit b :
  OpsCoordinator.resume unit b (Cluster.run acts init) =
  Cluster.run (acts ++ [Cluster.Resume unit b]) init.
Proof. unfold Cluster.run. by rewrite foldl_app. Qed.

(** On the Ledgers a [restart] is a [resume] followed by a [release], or a
    [resume] alone when a service call raised: its steps interleave with
    those of the other members like separate resume and release steps. *)
Lemma restart_protocol_state sm unit is_leader self w :
  let w1 := OpsCoordinator.resume unit is_leader w in
  let w' := (RestartEvent.restart sm unit is_leader self w).2 in
  (ledger w' = ledger (OpsCoordinator.release unit w1) /\
   memory w' = memory (OpsCoordinator.release unit w1)) \/
  (ledger w' = ledger w1 /\ memory w' = memory w1).
Proof.
  intros w1 w'. unfold w', RestartEvent.restart. fold w1.
  destruct (acquire unit "restart" w1); [| by left].
  rewrite restart_services_flat.
  destruct (run_calls_frame sm (RestartEvent.plan (RestartEvent.svc self)) w1)
    as [done Hdone].
  destruct (RestartEvent.run_calls _ _ _) as [[[]|e] w2]; simpl in *; subst w2.
  - by left.
  - by right.
Qed.

(** A [restart] that is not granted answers [False] after a [release]. *)
Lemma restart_denied sm unit is_leader self w :
  acquire unit "restart" (OpsCoordinator.resume unit is_leader w) = false ->
  RestartEvent.restart sm unit is_leader self w =
  (Returned false,
   OpsCoordinator.release unit (OpsCoordinator.resume unit is_leader w)).
Proof. intros Hacq. unfold RestartEvent.restart. by rewrite Hacq. Qed.

Lemma resume_calls unit is_leader w :
  calls (OpsCoordinator.resume unit is_leader w) = calls w.
Proof. unfold OpsCoordinator.resume, handle. by destruct is_leader. Qed.

Lemma resume_journal unit is_leader w :
  journal (OpsCoordinator.resume unit is_leader w) =
  journal w ++ [mkEntry unit Initialize (length (calls w));
                mkEntry unit Handle (length (calls w))].
Proof.
  unfold OpsCoordinator.resume, handle, initialize.
  destruct is_leader; simpl; by rewrite <- app_assoc.
Qed.

Lemma release_journal unit w :
  journal (OpsCoordinator.release unit w) =
  journal w ++ [mkEntry unit ReleaseGranted (length (calls w));
                mkEntry unit SaveState (length (calls w))].
Proof.
  unfold OpsCoordinator.release, _save_state, _release_granted. simpl.
  by rewrite <- app_assoc.
Qed.




(** C3: when the lock is not granted, [restart] returns [False], makes no
    service-manager call, and still runs [release], which persists. *)
Theorem restart_not_granted (sm : ServiceManager) (unit : string)
  (is_leader : bool) (self : RestartEvent.t) (w : World) :
  acquire unit "restart" (OpsCoordinator.resume unit is_leader w) = false ->
  let w' := OpsCoordinator.release unit (OpsCoordinator.resume unit is_leader w) in
  RestartEvent.restart sm unit is_leader self w = (Returned false, w') /\
  calls w' = calls w /\
  durable w' !! unit = Some (mem w' unit).
Proof.
  intros Hacq w'. split; [by apply restart_denied |].
  split; [| apply save_state_durable].
  apply (resume_calls unit is_leader w).
Qed.

(** A granted [restart] never answers [False]. *)
Lemma restart_granted_outcome sm unit is_leader self w :
  acquire unit "restart" (OpsCoordinator.resume unit is_leader w) = true ->
  (RestartEvent.restart sm unit is_leader self w).1 = Returned true \/
  exists e c, (RestartEvent.restart sm unit is_leader self w).1 = Raised e /\
              (c, Raised e) ∈ calls (RestartEvent.restart sm unit is_leader self w).2.
Proof.
  intros Hacq. unfold RestartEvent.restart. rewrite Hacq.
  rewrite restart_services_flat.
  pose proof (run_calls_raised sm (RestartEvent.plan (RestartEvent.svc self))
                (OpsCoordinator.resume unit is_leader w)) as Hraised.
  destruct (RestartEvent.run_calls _ _ _) as [[[]|e] w2]; [by left | right].
  destruct (Hraised e eq_refl) as (done & c & Hw2). simpl in Hw2.
  exists e, c. split; [done |]. simpl. rewrite Hw2. simpl.
  rewrite !elem_of_app. right; right. apply list_elem_of_singleton. done.
Qed.

(** C4: when some service action fails during a granted [restart], by a
    false status or by an exception, the result differs from the [False]
    that a not-granted [restart] returns. *)
Theorem failure_distinct_from_not_granted
  (sm sm' : ServiceManager) (unit unit' : string) (is_leader is_leader' : bool)
  (self self' : RestartEvent.t) (w w' : World) :
  acquire unit "restart" (OpsCoordinator.resume unit is_leader w) = true ->
  acquire unit' "restart" (OpsCoordinator.resume unit' is_leader' w') = false ->
  (exists c r, (c, r) ∈ RestartEvent.new_calls w (RestartEvent.restart sm unit is_leader self w).2 /\
               r <> Returned true) ->
  (RestartEvent.restart sm' unit' is_leader' self' w').1 = Returned false /\
  (RestartEvent.restart sm unit is_leader self w).1 <>
  (RestartEvent.restart sm' unit' is_leader' self' w').1.
Proof.
  intros Hgranted Hdenied _.
  rewrite (restart_denied sm' unit' is_leader' self' w' Hdenied).
  split; [done |]. simpl.
  destruct (restart_granted_outcome sm unit is_leader self w Hgranted)
    as [-> | (e & c & -> & _)]; discriminate.
Qed.

(** C5: every [release] leaves the member's Ledger persisted; and when the
    caller holds no lock it changes neither the leader's Ledger nor any
    member's in-memory Ledger, so nobody's [acquire] changes. *)
Theorem release_persists (unit : string) (w : World) :
  let w' := OpsCoordinator.release unit w in
  durable w' !! unit = Some (mem w' unit) /\
  ((forall l, acquire unit l w = false) ->
   ledger w' = ledger w /\
   (forall u, mem w' u = mem w u) /\
   (forall u l, acquire u l w' = acquire u l w)).
Proof.
  intros w'. split; [apply save_state_durable |]. intros Hfree.
  destruct (release_granted_noop unit w Hfree) as [HL HM].
  split; [exact HL |]. split; [exact HM |].
  intros u l. unfold acquire. f_equal. apply HM.
Qed.

Lemma release_persists_witness :
  let w' := OpsCoordinator.release "kafka/1" Scenario.two_requests in
  durable w' !! "kafka/1" = Some (mem w' "kafka/1") /\
  ledger w' = ledger Scenario.two_requests.
Proof.
  destruct (release_persists "kafka/1" Scenario.two_requests) as [Hsaved Hnoop].
  split; [exact Hsaved |]. apply Hnoop.
  intros l. apply not_true_is_false. unfold acquire. rewrite holds_spec.
  intros [Hg _]. revert Hg.
  replace (mem Scenario.two_requests "kafka/1") with empty_ledger
    by (vm_compute; reflexivity).
  simpl. by rewrite lookup_empty.
Defined.


Lemma restart_not_granted_witness :
  (RestartEvent.restart Scenario.always_ok "kafka/1" false
     Scenario.broker_event Scenario.two_requests).1 = Returned false.
Proof.
  destruct (restart_not_granted Scenario.always_ok "kafka/1" false
              Scenario.broker_event Scenario.two_requests eq_refl) as [Heq _].
  by rewrite Heq.
Defined.

Example reload_failure_logged :
  RestartEvent.new_calls Scenario.two_requests
    (RestartEvent.restart Scenario.reload_fails "kafka/0" false
       Scenario.broker_event Scenario.two_requests).2 =
  [(ServiceResume "broker", Returned true);
   (ServiceReload "broker", Returned false);
   (ServiceRestart "broker", Returned true)].
Proof. vm_compute. reflexivity. Qed.

Lemma failure_distinct_from_not_granted_witness :
  (RestartEvent.restart Scenario.reload_fails "kafka/0" false
     Scenario.broker_event Scenario.two_requests).1 <>
  (RestartEvent.restart Scenario.always_ok "kafka/1" false
     Scenario.broker_event Scenario.two_requests).1.
Proof.
  apply (failure_distinct_from_not_granted Scenario.reload_fails
           Scenario.always_ok "kafka/0" "kafka/1" false false
           Scenario.broker_event Scenario.broker_event
           Scenario.two_requests Scenario.two_requests eq_refl eq_refl).
  exists (ServiceReload "broker"), (Returned false).
  split; [| discriminate].
  rewrite reload_failure_logged. apply list_elem_of_further, list_elem_of_here.
Defined.

(** ** [java_ssl.py] *)

(** With [crts] bound to the buffer the comprehension would give the three
    entries of the sample chain, each closed by the END marker. *)
Example chain_entries_three :
  JavaSsl.chain_entries Scenario.three_certificates =
  [Scenario.pem "CERT"; Scenario.pem "CA1"; Scenario.pem "CA2"].
Proof. vm_compute. reflexivity. Qed.

Lemma break_crt_chain_raises (buffer : string) :
  JavaSsl._break_crt_chain buffer = Raised (NameError "crts").
Proof. reflexivity. Qed.

(** C7 on the code: for the chain of three certificates
    [_break_crt_chain] raises [NameError] instead of returning three
    entries, and store creation stops there, before any file is written,
    whenever it does not return early. *)
Theorem break_crt_chain_three_certificates :
  JavaSsl._break_crt_chain Scenario.three_certificates
    = Raised (NameError "crts") /\
  forall check_call ks ts regenerate ks_pwd ts_pwd key user grp bits
         (fs : gmap string JavaSsl.File),
    fs !! ks = None \/ fs !! ts = None \/ regenerate = true ->
    JavaSsl.CreateKeystoreAndTrustore check_call ks ts regenerate ks_pwd ts_pwd
      Scenario.three_certificates key user grp bits fs
    = (Raised (NameError "crts"), fs).
Proof.
  split; [reflexivity |].
  intros check_call ks ts regenerate ks_pwd ts_pwd key user grp bits fs Hgo.
  unfold JavaSsl.CreateKeystoreAndTrustore, JavaSsl.andThen,
    JavaSsl.RegisterIfKeystoreExists, JavaSsl.RegisterIfTruststoreExists,
    JavaSsl._check_file_exists, JavaSsl.ret.
  destruct (fs !! ks) as [f1|] eqn:Hks; [| by rewrite bool_decide_eq_false_2
    by (intros [? ?]; done)].
  rewrite bool_decide_eq_true_2 by eauto.
  destruct (fs !! ts) as [f2|] eqn:Hts; [| by rewrite bool_decide_eq_false_2
    by (intros [? ?]; done)].
  rewrite bool_decide_eq_true_2 by eauto.
  destruct Hgo as [? | [? | ->]]; done.
Qed.

(** [saveCrtChainToFile] stops at the same place, whatever its arguments. *)
Lemma saveCrtChainToFile_raises buffer cert_path ca_chain_path user grp force
  (fs : gmap string JavaSsl.File) :
  JavaSsl.saveCrtChainToFile buffer cert_path ca_chain_path user grp force fs
  = (Raised (NameError "crts"), fs).
Proof. reflexivity. Qed.

(** C8 as the code has it: when both store files exist and regeneration is
    not forced, store creation returns [None] without raising and leaves
    every file as it was. *)
Theorem stores_kept_without_error (check_call : JavaSsl.Shell)
  (ks ts ks_pwd ts_pwd chain key user grp : string) (bits : option Z)
  (fs : gmap string JavaSsl.File) :
  is_Some (fs !! ks) -> is_Some (fs !! ts) ->
  JavaSsl.CreateKeystoreAndTrustore check_call ks ts false ks_pwd ts_pwd
    chain key user grp bits fs = (Returned tt, fs).
Proof.
  intros Hks Hts.
  unfold JavaSsl.CreateKeystoreAndTrustore, JavaSsl.andThen,
    JavaSsl.RegisterIfKeystoreExists, JavaSsl.RegisterIfTruststoreExists,
    JavaSsl._check_file_exists, JavaSsl.ret.
  by rewrite !bool_decide_eq_true_2.
Qed.

Lemma stores_kept_without_error_witness :
  JavaSsl.CreateKeystoreAndTrustore Scenario.quiet_shell
    "/etc/kafka/keystore.p12" "/etc/kafka/truststore.p12" false
    "secret" "secret" Scenario.three_certificates "KEY" "kafka" "kafka" None
    Scenario.stores_exist
  = (Returned tt, Scenario.stores_exist).
Proof.
  apply stores_kept_without_error.
  - exists (JavaSsl.mkFile "KS" "kafka" "kafka" 416). reflexivity.
  - exists (JavaSsl.mkFile "TS" "kafka" "kafka" 416). reflexivity.
Defined.

(** C8 as stated fails: called on existing stores without forcing, store
    creation raises nothing. *)
Lemma stores_exist_no_refusal :
  is_Some (Scenario.stores_exist !! "/etc/kafka/keystore.p12") /\
  is_Some (Scenario.stores_exist !! "/etc/kafka/truststore.p12") /\
  ~ exists e,
      (JavaSsl.CreateKeystoreAndTrustore Scenario.quiet_shell
         "/etc/kafka/keystore.p12" "/etc/kafka/truststore.p12" false
         "secret" "secret" Scenario.three_certificates "KEY" "kafka" "kafka"
         None Scenario.stores_exist).1 = Raised e.
Proof.
  split; [by eexists |]. split; [by eexists |].
  intros [e He]. vm_compute in He. discriminate.
Qed.

(** ** [wand/apps/kafka.py] *)

Example distro_default : Kafka.distro ∅ = "confluent".
Proof. reflexivity. Qed.

Example distro_lowercased : Kafka.distro {["distro" := "Apache"]} = "apache".
Proof. reflexivity. Qed.

(** C9 as the code has it: a selector other than "confluent" raises
    "Not Implemented Yet" before any host call when it is "apache", and
    otherwise goes straight to [apt_install] of the packages, adding no
    source. *)
Theorem install_packages_other_distro (host : Kafka.Host)
  (config : gmap string string) (java_version : string)
  (packages : list string) :
  Kafka.distro config <> "confluent" ->
  Kafka.install_packages host config java_version packages =
  if decide (Kafka.distro config = "apache")
  then (Raised (Exception "Not Implemented Yet"), [])
  else (Kafka.apt_install host packages, [Kafka.AptInstall packages]).
Proof.
  intros Hne. unfold Kafka.install_packages.
  rewrite decide_False by done. by destruct (decide _).
Qed.

Lemma install_packages_other_distro_witness :
  Kafka.install_packages Scenario.host_ok {["distro" := "Apache"]} "11"
    ["confluent-kafka"]
  = (Raised (Exception "Not Implemented Yet"), []).
Proof.
  rewrite install_packages_other_distro; [reflexivity |].
  vm_compute. discriminate.
Defined.

(** C9 as stated fails: the selector "redhat" is not supported, yet the
    packages are installed and nothing is raised. *)
Lemma install_packages_unknown_distro_installs :
  Kafka.distro {["distro" := "redhat"]} <> "confluent" /\
  Kafka.install_packages Scenario.host_ok {["distro" := "redhat"]} "11"
    ["confluent-kafka"]
  = (Returned tt, [Kafka.AptInstall ["confluent-kafka"]]).
Proof. split; [vm_compute; discriminate | reflexivity]. Qed.

(** * Further properties of the code *)

(** ** [RestartEvent]: snapshots across repeated deferrals *)

Lemma split_aux_nonempty (cur s : string) : split_aux "," 0 cur s <> [].
Proof.
  intros Heq. pose proof (length_split_aux cur s) as Hlen.
  rewrite Heq in Hlen. simpl in Hlen. lia.
Qed.

Lemma join_cons (sep x : string) (rest : list string) :
  rest <> [] -> join sep (x :: rest) = x +:+ sep +:+ join sep rest.
Proof. by destruct rest. Qed.

(** [",".join(s.split(","))] is [s]. *)
Lemma join_split_aux (cur s : string) :
  join "," (split_aux "," 0 cur s) = cur +:+ s.
Proof.
  revert cur. induction s as [|c s IH]; intros cur.
  - simpl. by rewrite app_empty_r.
  - rewrite split_aux_step.
    destruct (Ascii.eqb c ",") eqn:Hc.
    + apply Ascii.eqb_eq in Hc. subst c.
      rewrite join_cons by apply split_aux_nonempty.
      by rewrite IH, app_nil_l.
    + by rewrite IH, app_snoc.
Qed.

Lemma join_split (s : string) : join "," (split "," s) = s.
Proof. unfold split. by rewrite join_split_aux, app_nil_l. Qed.

(** Splitting a text at one more comma. *)
Lemma split_aux_app_comma (cur x r : string) :
  split_aux "," 0 cur (x +:+ "," +:+ r) =
  split_aux "," 0 cur x ++ split_aux "," 0 "" r.
Proof.
  revert cur. induction x as [|a x IH]; intros cur.
  - rewrite app_nil_l, app_cons, split_aux_step. done.
  - rewrite app_cons, !split_aux_step.
    destruct (Ascii.eqb a ","); by rewrite IH.
Qed.

Lemma split_join_flat (l : list string) :
  l <> [] -> split "," (join "," l) = flat_map (split ",") l.
Proof.
  unfold split. induction l as [|x l IH]; [done |]. intros _.
  destruct l as [|y l].
  - simpl. by rewrite app_nil_r.
  - rewrite join_cons by done. rewrite split_aux_app_comma.
    rewrite IH by done. done.
Qed.

(** X1: once an event has been restored from a snapshot, taking its snapshot
    again gives the same snapshot, and restoring that one gives the event
    back: repeated deferrals change nothing after the first. *)
Theorem snapshot_stable_after_restore (self self' e e' : RestartEvent.t) :
  RestartEvent.restore self (RestartEvent.snapshot e) = Returned e' ->
  RestartEvent.snapshot e' = RestartEvent.snapshot e /\
  RestartEvent.restore self' (RestartEvent.snapshot e') =
    Returned (RestartEvent.mk (RestartEvent.handle self')
                (RestartEvent._ctx e') (RestartEvent._svc e')).
Proof.
  rewrite restore_snapshot. intros [= <-].
  assert (Hsnap : RestartEvent.snapshot
            (RestartEvent.mk (RestartEvent.handle self) (RestartEvent._ctx e)
               (split "," (join "," (RestartEvent._svc e))))
          = RestartEvent.snapshot e).
  { unfold RestartEvent.snapshot; simpl. by rewrite join_split. }
  split; [exact Hsnap |].
  rewrite restore_snapshot. simpl. by rewrite join_split.
Qed.

Lemma snapshot_stable_after_restore_witness :
  RestartEvent.snapshot (RestartEvent.mk "h" "{}" ["a"; "b"; "c"]) =
  RestartEvent.snapshot (RestartEvent.mk "h" "{}" ["a,b"; "c"]).
Proof.
  apply (snapshot_stable_after_restore
           (RestartEvent.mk "h" "" []) (RestartEvent.mk "h" "" [])
           (RestartEvent.mk "h" "{}" ["a,b"; "c"])
           (RestartEvent.mk "h" "{}" ["a"; "b"; "c"])).
  reflexivity.
Defined.

(** X2: the restored services list is never empty; for a non-empty list it
    is the concatenation of the comma-split of each name, so a name holding
    commas comes back as several services. *)
Theorem restored_services (self e e' : RestartEvent.t) :
  RestartEvent.restore self (RestartEvent.snapshot e) = Returned e' ->
  RestartEvent.svc e' <> [] /\
  (RestartEvent.svc e <> [] ->
   RestartEvent.svc e' = flat_map (split ",") (RestartEvent.svc e)).
Proof.
  rewrite restore_snapshot. intros [= <-]. unfold RestartEvent.svc; simpl.
  split; [apply split_aux_nonempty | apply split_join_flat].
Qed.

Lemma restored_services_witness :
  RestartEvent.svc (RestartEvent.mk "h" "{}" ["kafka"; "zk"; "connect"]) =
  flat_map (split ",") ["kafka,zk"; "connect"].
Proof.
  apply (restored_services (RestartEvent.mk "h" "" [])
           (RestartEvent.mk "h" "{}" ["kafka,zk"; "connect"])
           (RestartEvent.mk "h" "{}" ["kafka"; "zk"; "connect"]) eq_refl).
  discriminate.
Defined.

(** ** [RestartEvent.restart]: failing service calls *)

(** The calls a sequence makes are always an initial part of it. *)
Lemma run_calls_prefix sm (cs : list Call) w :
  exists done,
    (RestartEvent.run_calls sm cs w).2 = set_calls (calls w ++ done) w /\
    done.*1 `prefix_of` cs /\
    ((RestartEvent.run_calls sm cs w).1 = Returned tt -> done.*1 = cs).
Proof.
  revert w. induction cs as [|c cs IH]; intros w.
  - exists []. simpl. rewrite app_nil_r, set_calls_id. done.
  - simpl. destruct (sm (calls w) c) as [b | e].
    + destruct (IH (log_call c (Returned b) w)) as (done & Hw & Hpre & Hall).
      exists ((c, Returned b) :: done). rewrite Hw. split; [| split].
      * unfold log_call; simpl. by rewrite set_calls_set_calls, <- app_assoc.
      * rewrite fmap_cons. by apply prefix_cons.
      * intros Hret. rewrite fmap_cons. f_equal. by apply Hall.
    + exists [(c, Raised e)]. split; [done |]. split; [| done].
      simpl. apply prefix_cons, prefix_nil.
Qed.

Lemma new_calls_app w done :
  RestartEvent.new_calls w (set_calls (calls w ++ done) w) = done.
Proof. unfold RestartEvent.new_calls. simpl. by rewrite drop_app_length. Qed.

(** X3: when a service call raises during a granted [restart], the
    exception leaves [restart] at once: no [release] runs, so the Ledgers
    and the persisted state are those left by [resume], the caller still
    holds the lock, and the raising call is the last one made. *)
Theorem restart_raise_keeps_lock (sm : ServiceManager) (unit : string)
  (is_leader : bool) (self : RestartEvent.t) (w : World) (e : exn) :
  (RestartEvent.restart sm unit is_leader self w).1 = Raised e ->
  let w1 := OpsCoordinator.resume unit is_leader w in
  let w' := (RestartEvent.restart sm unit is_leader self w).2 in
  ledger w' = ledger w1 /\ memory w' = memory w1 /\ durable w' = durable w1 /\
  acquire unit "restart" w' = true /\
  exists done c, calls w' = calls w ++ done ++ [(c, Raised e)].
Proof.
  intros Hr w1 w'. unfold w'. revert Hr. unfold RestartEvent.restart. fold w1.
  destruct (acquire unit "restart" w1) eqn:Hacq; [| done].
  rewrite restart_services_flat.
  pose proof (run_calls_raised sm (RestartEvent.plan (RestartEvent.svc self))
                w1 e) as Hraised.
  destruct (RestartEvent.run_calls _ _ _) as [[[]|e'] w2]; [done |].
  simpl in *. intros [= ->]. destruct (Hraised eq_refl) as (done & c & ->).
  repeat split; try done.
  exists done, c.
  change (calls w1 ++ done ++ [(c, Raised e)] = calls w ++ done ++ [(c, Raised e)]).
  unfold w1. by rewrite resume_calls.
Qed.

Lemma restart_raise_keeps_lock_witness :
  acquire "kafka/0" "restart"
    (RestartEvent.restart Scenario.restart_raises "kafka/0" false
       Scenario.broker_event Scenario.two_requests).2 = true.
Proof.
  apply (restart_raise_keeps_lock Scenario.restart_raises "kafka/0" false
           Scenario.broker_event Scenario.two_requests
           (External "CalledProcessError")).
  reflexivity.
Defined.

(** X4: the service-manager calls of a granted [restart] are always an
    initial part of the planned sequence (resume, reload, restart for each
    service in list order), and the whole of it when [restart] returns. *)
Theorem restart_calls_prefix (sm : ServiceManager) (unit : string)
  (is_leader : bool) (self : RestartEvent.t) (w : World) :
  acquire unit "restart" (OpsCoordinator.resume unit is_leader w) = true ->
  let r := RestartEvent.restart sm unit is_leader self w in
  (RestartEvent.new_calls w r.2).*1
    `prefix_of` RestartEvent.plan (RestartEvent.svc self) /\
  (forall b, r.1 = Returned b ->
     (RestartEvent.new_calls w r.2).*1 = RestartEvent.plan (RestartEvent.svc self)).
Proof.
  intros Hacq r. unfold r, RestartEvent.restart. rewrite Hacq.
  rewrite restart_services_flat.
  destruct (run_calls_prefix sm (RestartEvent.plan (RestartEvent.svc self))
              (OpsCoordinator.resume unit is_leader w))
    as (done & Hw & Hpre & Hall).
  assert (Hnew : forall w2,
            w2 = set_calls (calls (OpsCoordinator.resume unit is_leader w) ++ done)
                   (OpsCoordinator.resume unit is_leader w) ->
            RestartEvent.new_calls w w2 = done /\
            RestartEvent.new_calls w (OpsCoordinator.release unit w2) = done).
  { intros w2 ->. rewrite resume_calls. unfold RestartEvent.new_calls.
    split;
      (change (drop (length (calls w)) (calls w ++ done) = done);
       by rewrite drop_app_length). }
  destruct (RestartEvent.run_calls _ _ _) as [[[]|e] w2]; simpl in *.
  - destruct (Hnew w2 Hw) as [_ ->]. split; [done |]. intros _ _. by apply Hall.
  - destruct (Hnew w2 Hw) as [-> _]. split; [done |]. intros b Hb. done.
Qed.

Lemma restart_calls_prefix_witness :
  (RestartEvent.new_calls Scenario.two_requests
     (RestartEvent.restart Scenario.restart_raises "kafka/0" false
        Scenario.broker_event Scenario.two_requests).2).*1
  `prefix_of` RestartEvent.plan ["broker"].
Proof.
  apply (restart_calls_prefix Scenario.restart_raises "kafka/0" false
           Scenario.broker_event Scenario.two_requests eq_refl).
Defined.

(** X5: on a non-leader [handle_locks] changes nothing.  On the leader it
    is [resume] followed by [release]: when it ends the leader holds no
    lock, so a lock it granted to itself there is released in the same
    call, its Ledger is persisted, and the journal has exactly the four
    coordinator calls, in that order. *)
Theorem handle_locks_holds_nothing (unit : string) (w : World) :
  OpsCoordinator.handle_locks unit false w = w /\
  let w' := OpsCoordinator.handle_locks unit true w in
  (forall l, acquire unit l w' = false) /\
  durable w' !! unit = Some (mem w' unit) /\
  journal w' =
    journal w ++ [mkEntry unit Initialize (length (calls w));
                  mkEntry unit Handle (length (calls w));
                  mkEntry unit ReleaseGranted (length (calls w));
                  mkEntry unit SaveState (length (calls w))].
Proof.
  split; [done |]. intros w'.
  assert (Hw' : w' = OpsCoordinator.release unit
                       (OpsCoordinator.resume unit true w)) by done.
  rewrite Hw'. clear Hw' w'. split; [| split].
  - intros l. unfold OpsCoordinator.release.
    change (acquire unit l (_save_state unit ?x)) with (acquire unit l x).
    apply release_granted_acquire.
  - apply save_state_durable.
  - rewrite release_journal, resume_journal, resume_calls.
    by rewrite <- app_assoc.
Qed.

(** ** [java_ssl.py]: ownership and permissions *)

Section permissions.

Import JavaSsl.

Implicit Types (fs : gmap string File) (f : File).

(** [chown] then [chmod] to 0o640 on one path, followed by [k]. *)
Lemma set_perm_step {A} path user grp (k : M A) fs :
  andThen (chown path user grp) (fun _ => andThen (chmod path 416) (fun _ => k)) fs =
  match fs !! path with
  | Some f => k (<[path := mkFile (content f) user grp 416]> fs)
  | None => (Raised missing, fs)
  end.
Proof.
  unfold andThen, chown, chmod.
  destruct (fs !! path) as [f|]; [| done].
  rewrite bool_decide_eq_true_2 by lia.
  rewrite lookup_insert_eq. simpl. by rewrite insert_insert_eq.
Qed.

Lemma set_perm_last path user grp fs :
  andThen (chown path user grp) (fun _ => chmod path 416) fs =
  match fs !! path with
  | Some f => (Returned tt, <[path := mkFile (content f) user grp 416]> fs)
  | None => (Raised missing, fs)
  end.
Proof.
  unfold andThen, chown, chmod.
  destruct (fs !! path) as [f|]; [| done].
  rewrite bool_decide_eq_true_2 by lia.
  rewrite lookup_insert_eq. simpl. by rewrite insert_insert_eq.
Qed.

Lemma set_perm_has path user grp bits fs f :
  fs !! path = Some f ->
  has_perms (<[path := mkFile (content f) user grp bits]> fs) path user grp bits.
Proof. intros _. eexists. by rewrite lookup_insert_eq. Qed.

Lemma set_perm_keeps path q user grp bits fs f :
  fs !! path = Some f -> has_perms fs q user grp bits ->
  has_perms (<[path := mkFile (content f) user grp bits]> fs) q user grp bits.
Proof.
  intros Hf Hq. destruct (decide (path = q)) as [<- | Hne].
  - by eapply set_perm_has.
  - destruct Hq as (fq & ? & ?). exists fq. by rewrite lookup_insert_ne.
Qed.

Lemma set_perm_contents path user grp bits fs f :
  fs !! path = Some f ->
  same_contents fs (<[path := mkFile (content f) user grp bits]> fs).
Proof.
  intros Hf q. destruct (decide (path = q)) as [<- | Hne].
  - by rewrite lookup_insert_eq, Hf.
  - by rewrite lookup_insert_ne.
Qed.

Lemma same_contents_trans fs1 fs2 fs3 :
  same_contents fs1 fs2 -> same_contents fs2 fs3 -> same_contents fs1 fs3.
Proof. intros H12 H23 q. by rewrite H23, H12. Qed.


(** X7: when [SetTrustAndKeystoreFilePermissions] returns, both stores
    belong to the given user and group with mode 0o640, every file has the
    content it had, and no other file has changed. *)
Theorem trust_and_keystore_permissions (user grp ks ts : string)
  (fs fs' : gmap string File) :
  SetTrustAndKeystoreFilePermissions user grp ks ts fs = (Returned tt, fs') ->
  has_perms fs' ks user grp 416 /\ has_perms fs' ts user grp 416 /\
  same_contents fs fs' /\
  (forall q, q <> ks -> q <> ts -> fs' !! q = fs !! q).
Proof.
  unfold SetTrustAndKeystoreFilePermissions. rewrite set_perm_step.
  destruct (fs !! ks) as [f1|] eqn:H1; [| done].
  rewrite set_perm_last.
  destruct (_ !! ts) as [f2|] eqn:H2; [| done].
  intros [= <-].
  pose proof (set_perm_has ks user grp 416 fs f1 H1) as Hks.
  split; [by eapply set_perm_keeps |]. split; [by eapply set_perm_has |].
  split.
  - eapply same_contents_trans; by eapply set_perm_contents.
  - intros q Hq1 Hq2. by rewrite !lookup_insert_ne.
Qed.

Lemma trust_and_keystore_permissions_witness :
  has_perms
    (SetTrustAndKeystoreFilePermissions "kafka" "kafka"
       "/etc/kafka/keystore.p12" "/etc/kafka/truststore.p12"
       Scenario.stores_exist).2
    "/etc/kafka/keystore.p12" "kafka" "kafka" 416.
Proof.
  apply (trust_and_keystore_permissions "kafka" "kafka"
           "/etc/kafka/keystore.p12" "/etc/kafka/truststore.p12"
           Scenario.stores_exist).
  vm_compute. reflexivity.
Defined.

(** X9: [SetCertAndKeyFilePermissions] raises when one of its three paths
    is missing; when it returns, all three belong to the given user and
    group with mode 0o640, contents are kept and no other file has
    changed. *)
Theorem cert_and_key_permissions (user grp ca cert key : string)
  (fs : gmap string File) :
  let r := SetCertAndKeyFilePermissions user grp ca cert key fs in
  (fs !! ca = None \/ fs !! cert = None \/ fs !! key = None ->
   exists e, r.1 = Raised e) /\
  (r.1 = Returned tt ->
   has_perms r.2 ca user grp 416 /\ has_perms r.2 cert user grp 416 /\
   has_perms r.2 key user grp 416 /\ same_contents fs r.2 /\
   (forall q, q <> ca -> q <> cert -> q <> key -> r.2 !! q = fs !! q)).
Proof.
  intros r. unfold r, SetCertAndKeyFilePermissions. clear r.
  rewrite set_perm_step.
  destruct (fs !! ca) as [f1|] eqn:H1.
  2: { split; [| done]. intros _. by exists missing. }
  set (fs1 := <[ca := mkFile (content f1) user grp 416]> fs).
  assert (Hsome : forall q, is_Some (fs1 !! q) <-> is_Some (fs !! q)).
  { intros q. unfold fs1. destruct (decide (ca = q)) as [<- |].
    - rewrite lookup_insert_eq, H1. split; eauto.
    - by rewrite lookup_insert_ne. }
  rewrite set_perm_step.
  destruct (fs1 !! cert) as [f2|] eqn:H2.
  2: { split; [| done]. intros _. by exists missing. }
  set (fs2 := <[cert := mkFile (content f2) user grp 416]> fs1).
  rewrite set_perm_last.
  destruct (fs2 !! key) as [f3|] eqn:H3.
  2: { split; [| done]. intros _. by exists missing. }
  simpl. split.
  - intros [Hn | [Hn | Hn]]; exfalso.
    + congruence.
    + assert (is_Some (fs !! cert)) as [? ?] by (apply Hsome; eauto). congruence.
    + assert (is_Some (fs2 !! key)) as Hk by eauto.
      unfold fs2 in Hk.
      destruct (decide (cert = key)) as [<- |].
      * assert (is_Some (fs !! cert)) as [? ?] by (apply Hsome; eauto).
        congruence.
      * rewrite lookup_insert_ne in Hk by done.
        apply Hsome in Hk as [? ?]. congruence.
  - intros _.
    pose proof (set_perm_has ca user grp 416 fs f1 H1) as Hca. fold fs1 in Hca.
    pose proof (set_perm_has cert user grp 416 fs1 f2 H2) as Hcert.
    fold fs2 in Hcert.
    pose proof (set_perm_keeps cert ca user grp 416 fs1 f2 H2 Hca) as Hca2.
    fold fs2 in Hca2.
    split; [by eapply set_perm_keeps |].
    split; [by eapply set_perm_keeps |].
    split; [by eapply set_perm_has |].
    split.
    + eapply same_contents_trans; [| by eapply set_perm_contents].
      eapply same_contents_trans; by eapply set_perm_contents.
    + intros q Hq1 Hq2 Hq3. unfold fs2, fs1. by rewrite !lookup_insert_ne.
Qed.

End permissions.

(** ** [java_ssl.py]: temporary key material *)

Section stores.

Import JavaSsl.

Implicit Types (fs : gmap string File).

Lemma remove_Some path fs :
  is_Some (fs !! path) -> remove path fs = (Returned tt, delete path fs).
Proof. intros [f Hf]. unfold remove. by rewrite Hf. Qed.

Lemma remove_None path fs :
  fs !! path = None -> remove path fs = (Raised missing, fs).
Proof. intros Hf. unfold remove. by rewrite Hf. Qed.

(** The files as [PKCS12CreateKeystore] leaves them before running a tool. *)
Lemma staged_files ssl_chain ssl_key fs :
  exists f1 f2,
    content f1 = ssl_chain /\ content f2 = ssl_key /\
    (write_file tmp_key ssl_key (write_file tmp_chain ssl_chain fs).2).2 =
    <[tmp_key := f2]> (<[tmp_chain := f1]> fs).
Proof.
  unfold write_file at 2. simpl.
  destruct (fs !! tmp_chain) as [f|]; simpl.
  - unfold write_file. rewrite lookup_insert_ne by done.
    destruct (fs !! tmp_key) as [g|]; simpl;
      (eexists _, _; (split; [| split]); [| | reflexivity]; reflexivity).
  - unfold write_file. rewrite lookup_insert_ne by done.
    destruct (fs !! tmp_key) as [g|]; simpl;
      (eexists _, _; (split; [| split]); [| | reflexivity]; reflexivity).
Qed.

(** X10: when both tools succeed and the three temporary files are there
    afterwards, [PKCS12CreateKeystore] returns with all three removed and
    every other file as the tools left it. *)
Theorem pkcs12_success_cleans_up (check_call : Shell)
  (keystore_path keystore_pwd ssl_chain ssl_key : string)
  (fs fs2 fs3 : gmap string File) :
  let fs1 := (write_file tmp_key ssl_key (write_file tmp_chain ssl_chain fs).2).2 in
  check_call pk12_cmd fs1 = (Returned tt, fs2) ->
  check_call (ks_cmd keystore_path keystore_pwd) fs2 = (Returned tt, fs3) ->
  is_Some (fs3 !! tmp_key) -> is_Some (fs3 !! tmp_p12) ->
  is_Some (fs3 !! tmp_chain) ->
  let r := PKCS12CreateKeystore check_call keystore_path keystore_pwd
             ssl_chain ssl_key fs in
  r = (Returned tt, delete tmp_chain (delete tmp_p12 (delete tmp_key fs3))) /\
  r.2 !! tmp_key = None /\ r.2 !! tmp_p12 = None /\ r.2 !! tmp_chain = None.
Proof.
  intros fs1 H1 H2 Hkey Hp12 Hchain r.
  assert (Hr : r = (Returned tt,
                    delete tmp_chain (delete tmp_p12 (delete tmp_key fs3)))).
  { unfold r, PKCS12CreateKeystore, tryExcept, andThen.
    change (write_file tmp_chain ssl_chain fs)
      with (Returned tt, (write_file tmp_chain ssl_chain fs).2).
    cbv beta iota.
    change (write_file tmp_key ssl_key (write_file tmp_chain ssl_chain fs).2)
      with (Returned tt, fs1).
    cbv beta iota. fold pk12_cmd. rewrite H1.
    fold (ks_cmd keystore_path keystore_pwd). rewrite H2.
    unfold cleanup, andThen.
    rewrite (remove_Some tmp_key fs3 Hkey).
    rewrite (remove_Some tmp_p12) by (by rewrite lookup_delete_ne).
    rewrite (remove_Some tmp_chain) by (by rewrite !lookup_delete_ne).
    done. }
  split; [exact Hr |]. rewrite Hr. simpl.
  split; [| split].
  - rewrite !lookup_delete_ne by done. apply lookup_delete_eq.
  - rewrite lookup_delete_ne by done. apply lookup_delete_eq.
  - apply lookup_delete_eq.
Qed.

Lemma pkcs12_success_cleans_up_witness :
  (PKCS12CreateKeystore Scenario.tools "/etc/kafka/keystore.p12" "secret"
     "CHAIN" "KEY" ∅).2 !! tmp_key = None.
Proof.
  eapply (pkcs12_success_cleans_up Scenario.tools "/etc/kafka/keystore.p12"
            "secret" "CHAIN" "KEY" ∅).
  - reflexivity.
  - reflexivity.
  - by eexists.
  - by eexists.
  - by eexists.
Defined.

(** X11: when the first tool fails without having written the PKCS12 file,
    and none was there before, the clean-up of the handler itself raises
    [FileNotFoundError] on that file: the tool's error is lost, the key file
    is removed, and the certificate chain stays in /tmp. *)
Theorem pkcs12_failure_leaves_chain (check_call : Shell)
  (keystore_path keystore_pwd ssl_chain ssl_key : string)
  (fs : gmap string File) (e : exn) :
  let fs1 := (write_file tmp_key ssl_key (write_file tmp_chain ssl_chain fs).2).2 in
  check_call pk12_cmd fs1 = (Raised e, fs1) ->
  fs !! tmp_p12 = None ->
  let r := PKCS12CreateKeystore check_call keystore_path keystore_pwd
             ssl_chain ssl_key fs in
  r = (Raised (External "FileNotFoundError"), delete tmp_key fs1) /\
  r.2 !! tmp_key = None /\
  content <$> (r.2 !! tmp_chain) = Some ssl_chain.
Proof.
  intros fs1 H1 Hp12 r.
  destruct (staged_files ssl_chain ssl_key fs) as (f1 & f2 & Hc1 & Hc2 & Hfs1).
  fold fs1 in Hfs1.
  assert (Hr : r = (Raised missing, delete tmp_key fs1)).
  { unfold r, PKCS12CreateKeystore, tryExcept, andThen.
    change (write_file tmp_chain ssl_chain fs)
      with (Returned tt, (write_file tmp_chain ssl_chain fs).2).
    cbv beta iota.
    change (write_file tmp_key ssl_key (write_file tmp_chain ssl_chain fs).2)
      with (Returned tt, fs1).
    cbv beta iota. fold pk12_cmd. rewrite H1.
    unfold cleanup, andThen.
    rewrite (remove_Some tmp_key fs1)
      by (rewrite Hfs1, lookup_insert_eq; eauto).
    rewrite (remove_None tmp_p12)
      by (by rewrite lookup_delete_ne, Hfs1, !lookup_insert_ne).
    done. }
  split; [exact Hr |]. rewrite Hr. simpl.
  split; [apply lookup_delete_eq |].
  rewrite lookup_delete_ne, Hfs1, lookup_insert_ne, lookup_insert_eq by done.
  simpl. by rewrite Hc1.
Qed.

Lemma pkcs12_failure_leaves_chain_witness :
  content <$> ((PKCS12CreateKeystore Scenario.broken_tools
                  "/etc/kafka/keystore.p12" "secret" "CHAIN" "KEY" ∅).2
               !! tmp_chain) = Some "CHAIN".
Proof.
  eapply (pkcs12_failure_leaves_chain Scenario.broken_tools
            "/etc/kafka/keystore.p12" "secret" "CHAIN" "KEY" ∅
            (External "CalledProcessError")).
  - reflexivity.
  - reflexivity.
Defined.

(** Writing each certificate to one path keeps all other paths. *)
Lemma write_each_effect path (ssl_ca : list string) fs :
  exists fs', write_each path ssl_ca fs = (Returned tt, fs') /\
    delete path fs' = delete path fs /\
    (ssl_ca <> [] -> is_Some (fs' !! path)) /\
    (ssl_ca = [] -> fs' = fs).
Proof.
  revert fs. induction ssl_ca as [|c rest IH]; intros fs.
  - exists fs. by repeat split.
  - simpl. unfold andThen.
    set (fs1 := (write_file path c fs).2).
    change (write_file path c fs) with (Returned tt, fs1). cbv beta iota.
    assert (Hfs1 : delete path fs1 = delete path fs /\ is_Some (fs1 !! path)).
    { unfold fs1, write_file. simpl.
      destruct (fs !! path); rewrite delete_insert_eq, lookup_insert_eq; eauto. }
    destruct Hfs1 as [Hdel Hsome].
    destruct (IH fs1) as (fs' & -> & Hdel' & Hne & Hnil).
    exists fs'. split; [done |]. split; [congruence |]. split; [| done].
    intros _. destruct rest as [|c' rest'].
    + by rewrite Hnil.
    + by apply Hne.
Qed.

(** X12: [CreateTruststoreWithCertificates] never runs the import command:
    it raises when there is no certificate and no /tmp/juju_ca_cert, and
    otherwise returns having only removed /tmp/juju_ca_cert, so the
    truststore file is neither created nor changed. *)
Theorem truststore_never_written (truststore_path truststore_pwd : string)
  (ssl_ca : list string) (fs : gmap string File) :
  let r := CreateTruststoreWithCertificates truststore_path truststore_pwd
             ssl_ca fs in
  (ssl_ca = [] /\ fs !! "/tmp/juju_ca_cert" = None ->
   r = (Raised (External "FileNotFoundError"), fs)) /\
  (ssl_ca <> [] \/ is_Some (fs !! "/tmp/juju_ca_cert") ->
   r = (Returned tt, delete "/tmp/juju_ca_cert" fs)) /\
  (truststore_path <> "/tmp/juju_ca_cert" ->
   r.2 !! truststore_path = fs !! truststore_path).
Proof.
  intros r. unfold r, CreateTruststoreWithCertificates, andThen. clear r.
  destruct (write_each_effect "/tmp/juju_ca_cert" ssl_ca fs)
    as (fs' & -> & Hdel & Hne & Hnil).
  assert (Hother : truststore_path <> "/tmp/juju_ca_cert" ->
            fs' !! truststore_path = fs !! truststore_path).
  { intros Hp.
    rewrite <- (lookup_delete_ne fs' "/tmp/juju_ca_cert" truststore_path) by done.
    rewrite Hdel. by rewrite lookup_delete_ne. }
  split; [| split].
  - intros [-> Hnone]. rewrite (Hnil eq_refl). by rewrite remove_None.
  - intros Hsome. rewrite remove_Some; [by rewrite Hdel |].
    destruct Hsome as [Hca | Hfile]; [by apply Hne |].
    destruct ssl_ca; [by rewrite Hnil | by apply Hne].
  - intros Hp. unfold remove.
    destruct (fs' !! "/tmp/juju_ca_cert") eqn:Hf; simpl.
    + rewrite lookup_delete_ne by done. by apply Hother.
    + by apply Hother.
Qed.

End stores.

(** ** [java_ssl.py]: random passwords *)

Section passwords.

Import JavaSsl.

Lemma get_lt (s : string) (i : nat) :
  i < String.length s ->
  exists c, String.get i s = Some c /\ contains_char c s = true.
Proof.
  revert i. induction s as [|a s IH]; intros i Hi; simpl in Hi; [lia |].
  destruct i as [|i]; simpl.
  - exists a. by rewrite Ascii.eqb_refl.
  - destruct (IH i) as (c & Hc & Hin); [lia |].
    exists c. split; [done |]. rewrite Hin. apply orb_true_r.
Qed.

Lemma pick_char_ok (b : ascii) :
  exists ch, pick_char b = Returned ch /\ contains_char ch CHARS_PASSWORD = true.
Proof.
  unfold pick_char, getitem.
  destruct (get_lt CHARS_PASSWORD
              (nat_of_ascii b mod String.length CHARS_PASSWORD))
    as (ch & -> & Hin).
  - apply Nat.mod_upper_bound. by vm_compute.
  - by exists ch.
Qed.

Lemma pick_chars_ok (bytes : list ascii) :
  exists l, pick_chars bytes = Returned l /\ length l = length bytes /\
    Forall (fun x => exists ch, x = String ch "" /\
                       contains_char ch CHARS_PASSWORD = true) l.
Proof.
  induction bytes as [|b bytes IH].
  - exists []. by repeat split.
  - destruct IH as (l & Hl & Hlen & Hall).
    destruct (pick_char_ok b) as (ch & Hch & Hin).
    exists (String ch "" :: l). cbn [pick_chars]. rewrite Hch, Hl. simpl.
    split; [done |]. split; [by rewrite Hlen |].
    constructor; [by exists ch | done].
Qed.

Lemma length_append (s t : string) :
  String.length (s +:+ t) = String.length s + String.length t.
Proof.
  induction s as [|a s IH]; [done |]. rewrite app_cons. simpl. by rewrite IH.
Qed.

Lemma contains_char_append (c : ascii) (s t : string) :
  contains_char c (s +:+ t) = contains_char c s || contains_char c t.
Proof.
  induction s as [|a s IH]; [done |]. rewrite app_cons. simpl.
  rewrite IH. by rewrite orb_assoc.
Qed.

Lemma join_empty_cons (x : string) (l : list string) :
  join "" (x :: l) = x +:+ join "" l.
Proof. destruct l; [by rewrite app_empty_r | done]. Qed.

(** X13: [genRandomPassword] never raises; the password has one character
    for each random byte, and every character is a letter or a digit of
    [CHARS_PASSWORD]. *)
Theorem genRandomPassword_alphabet (urandom : nat -> list ascii) :
  exists s, genRandomPassword urandom = Returned s /\
    String.length s = length (urandom PASSWORD_LEN) /\
    forall c, contains_char c s = true ->
              contains_char c CHARS_PASSWORD = true.
Proof.
  unfold genRandomPassword.
  destruct (pick_chars_ok (urandom PASSWORD_LEN)) as (l & -> & Hlen & Hall).
  exists (join "" l). split; [done |]. rewrite <- Hlen. clear Hlen.
  induction Hall as [|x l (ch & -> & Hin) Hall [IHlen IHin]]; [done |].
  rewrite join_empty_cons. split.
  - rewrite length_append. simpl. by rewrite IHlen.
  - intros c. rewrite contains_char_append. simpl. rewrite orb_false_r.
    intros [Hc | Hc]%orb_true_iff; [| by apply IHin].
    apply Ascii.eqb_eq in Hc. by subst.
Qed.

(** X14: the choice of a character is not uniform: of the 256 byte values
    five give each of the letters a to h, four give each other character
    of [CHARS_PASSWORD], and none gives anything else. *)
Theorem genRandomPassword_bias (ch : ascii) :
  bytes_giving ch =
  if contains_char ch "abcdefgh" then 5
  else if contains_char ch CHARS_PASSWORD then 4 else 0.
Proof.
  destruct ch as [[] [] [] [] [] [] [] []]; vm_compute; reflexivity.
Qed.

End passwords.

(** ** [wand/apps/kafka.py]: ssl settings and directories *)

Section kafka_dirs.

Import Kafka.

Lemma has_text (s : string) : (0 <? String.length s)%nat = true <-> s <> "".
Proof. destruct s; simpl; [split; [done | congruence] | split; done]. Qed.

Lemma has_no_text (s : string) : (0 <? String.length s)%nat = false <-> s = "".
Proof. destruct s; simpl; split; done. Qed.

(** X15: [is_client_ssl_enabled] answers [True] exactly when both
    [ssl_cert] and [ssl_key] are set to non-empty text, and logs its warning
    exactly when one of the two is set and the other is not. *)
Theorem is_client_ssl_enabled_iff (config : gmap string string) :
  let cert := default "" (config !! "ssl_cert") in
  let key := default "" (config !! "ssl_key") in
  ((is_client_ssl_enabled config).1 = true <-> cert <> "" /\ key <> "") /\
  ((is_client_ssl_enabled config).2 <> [] <->
   (cert <> "" /\ key = "") \/ (cert = "" /\ key <> "")).
Proof.
  intros cert key. unfold is_client_ssl_enabled. fold cert key.
  destruct (0 <? String.length cert)%nat eqn:Hc;
    destruct (0 <? String.length key)%nat eqn:Hk; simpl;
    try apply has_text in Hc; try apply has_text in Hk;
    try apply has_no_text in Hc; try apply has_no_text in Hk;
    split; split; try done; tauto.
Qed.

Lemma no_text_spec (x : option string) :
  no_text x = true <-> x = None \/ x = Some "".
Proof.
  unfold no_text. destruct x as [[|a s]|]; simpl; split; try done; eauto.
  - intros [? | ?]; done.
Qed.

(** X16: when the log directory or the data directory is unset or empty,
    [create_data_and_log_dirs] logs one warning and returns: no directory
    is created, nothing is formatted or mounted, even if the other
    directory and the devices are given. *)
Theorem create_dirs_needs_both (host : DirHost) (config : gmap string string)
  (data_log_dev data_dev : option (list (string * string)))
  (data_log_dir data_dir : option string)
  (data_log_fs data_fs user group : string) (fs_options : option string) :
  data_log_dir = None \/ data_log_dir = Some "" \/
  data_dir = None \/ data_dir = Some "" ->
  exists msg,
    create_data_and_log_dirs host config data_log_dev data_dev data_log_dir
      data_dir data_log_fs data_fs user group fs_options []
    = (Returned tt, [Warning msg]).
Proof.
  intros H. unfold create_data_and_log_dirs.
  destruct (no_text data_log_dir) eqn:Hlog; [by eexists |].
  destruct (no_text data_dir) eqn:Hdir; [by eexists |].
  apply not_true_iff_false in Hlog, Hdir.
  rewrite no_text_spec in Hlog, Hdir. tauto.
Qed.

Lemma create_dirs_needs_both_witness :
  exists msg,
    create_data_and_log_dirs Scenario.machine_ok Scenario.kafka_config
      (Some [("ext4", "/dev/vdb")]) None (Some "/var/log/kafka") (Some "")
      "ext4" "ext4" "cp-kafka" "confluent" None []
    = (Returned tt, [Warning msg]).
Proof. apply create_dirs_needs_both. right; right; right. reflexivity. Defined.

Lemma last_item_snoc (d : list (string * string)) k v before :
  last_item (d ++ [(k, v)]) before = (Some k, Some v).
Proof. unfold last_item. by rewrite foldl_app. Qed.

Lemma no_items_snoc (d : list (string * string)) kv :
  no_items (Some (d ++ [kv])) = false.
Proof.
  unfold no_items. simpl. rewrite length_app. simpl.
  apply Nat.eqb_neq. lia.
Qed.

(** X17: with both directories and both device mappings given, a
    configuration that has "user" and "group", and a machine on which every
    operation succeeds, [create_data_and_log_dirs] creates and chowns the log
    directory and then the data directory with the configured user and group
    (not the [user] and [group] arguments), then formats and mounts only the
    last entry of each mapping, log device first, with the "fs-options" of
    the configuration. *)
Theorem create_dirs_trace (host : DirHost) (config : gmap string string)
  (log_devs devs : list (string * string))
  (log_fs log_dev fs dev log_dir dir u g : string)
  (data_log_fs data_fs user group : string) (fs_options : option string) :
  (forall e, host e = None) ->
  config !! "user" = Some u -> config !! "group" = Some g ->
  log_dir <> "" -> dir <> "" ->
  create_data_and_log_dirs host config
    (Some (log_devs ++ [(log_fs, log_dev)])) (Some (devs ++ [(fs, dev)]))
    (Some log_dir) (Some dir) data_log_fs data_fs user group fs_options []
  = (Returned tt,
     [Makedirs log_dir 488; ChownDir log_dir u g;
      Makedirs dir 488; ChownDir dir u g;
      Info ("Data log device: mkfs -t " +:+ log_fs);
      CheckCall ["mkfs"; "-t"; log_fs; log_dev];
      Mount log_dev log_dir (config !! "fs-options") true log_fs;
      Info ("Data log device: mkfs -t " +:+ fs);
      CheckCall ["mkfs"; "-t"; fs; dev];
      Mount dev dir (config !! "fs-options") true fs]).
Proof.
  intros Hok Hu Hg Hlog Hdir. unfold create_data_and_log_dirs.
  assert (no_text (Some log_dir) = false) as ->.
  { apply not_true_iff_false. rewrite no_text_spec.
    intros [? | [= ?]]; done. }
  assert (no_text (Some dir) = false) as ->.
  { apply not_true_iff_false. rewrite no_text_spec.
    intros [? | [= ?]]; done. }
  rewrite !no_items_snoc. cbn [from_option id].
  rewrite !last_item_snoc.
  unfold tbind, perform, config_item, format_and_mount, tbind, perform, say,
    tret.
  rewrite Hu, Hg. unfold tret. cbn [fst snd].
  repeat (rewrite ?last_item_snoc, ?Hok; progress cbn [fst snd app]).
  rewrite ?last_item_snoc, ?Hok. reflexivity.
Qed.

Lemma create_dirs_trace_witness :
  (create_data_and_log_dirs Scenario.machine_ok Scenario.kafka_config
     (Some [("xfs", "/dev/vdb"); ("ext4", "/dev/vdc")])
     (Some [("ext4", "/dev/vdd")])
     (Some "/var/log/kafka") (Some "/data") "" "" "root" "root" None []).1
  = Returned tt.
Proof.
  rewrite (create_dirs_trace Scenario.machine_ok Scenario.kafka_config
             [("xfs", "/dev/vdb")] [] "ext4" "/dev/vdc" "ext4" "/dev/vdd"
             "/var/log/kafka" "/data" "cp-kafka" "confluent");
    done.
Defined.

(** X18: when the configuration has no "user", the log directory is
    created first and only then [KeyError] is raised; nothing is chowned,
    formatted or mounted. *)
Theorem create_dirs_missing_user (host : DirHost) (config : gmap string string)
  (data_log_dev data_dev : option (list (string * string)))
  (log_dir dir : string)
  (data_log_fs data_fs user group : string) (fs_options : option string) :
  config !! "user" = None -> log_dir <> "" -> dir <> "" ->
  host (Makedirs log_dir 488) = None ->
  create_data_and_log_dirs host config data_log_dev data_dev
    (Some log_dir) (Some dir) data_log_fs data_fs user group fs_options []
  = (Raised (KeyError "user"), [Makedirs log_dir 488]).
Proof.
  intros Hu Hlog Hdir Hok. unfold create_data_and_log_dirs.
  assert (no_text (Some log_dir) = false) as ->.
  { apply not_true_iff_false. rewrite no_text_spec.
    intros [? | [= ?]]; done. }
  assert (no_text (Some dir) = false) as ->.
  { apply not_true_iff_false. rewrite no_text_spec.
    intros [? | [= ?]]; done. }
  cbn [from_option id].
  unfold tbind at 1. unfold perform at 1. rewrite Hok.
  unfold tbind at 1. unfold config_item at 1. by rewrite Hu.
Qed.

Lemma create_dirs_missing_user_witness :
  create_data_and_log_dirs Scenario.machine_ok ∅ None None
    (Some "/var/log/kafka") (Some "/data") "" "" "cp-kafka" "confluent" None []
  = (Raised (KeyError "user"), [Makedirs "/var/log/kafka" 488]).
Proof. apply create_dirs_missing_user; done. Defined.

(** X19: without device mappings ([None] or empty) nothing is ever
    formatted or mounted, whatever the machine and the configuration do. *)
Theorem create_dirs_no_device (host : DirHost) (config : gmap string string)
  (data_log_dev data_dev : option (list (string * string)))
  (data_log_dir data_dir : option string)
  (data_log_fs data_fs user group : string) (fs_options : option string) :
  no_items data_log_dev = true -> no_items data_dev = true ->
  Forall (fun e => touches_device e = false)
    (create_data_and_log_dirs host config data_log_dev data_dev data_log_dir
       data_dir data_log_fs data_fs user group fs_options []).2.
Proof.
  intros Hd1 Hd2. unfold create_data_and_log_dirs. rewrite Hd1, Hd2.
  destruct (no_text data_log_dir); [by repeat constructor |].
  destruct (no_text data_dir); [by repeat constructor |].
  unfold tbind, perform, config_item, say, tret, traise.
  repeat match goal with
         | |- context [host ?e] => destruct (host e)
         | |- context [config !! ?k] => destruct (config !! k)
         end; simpl; by repeat constructor.
Qed.

Lemma create_dirs_no_device_witness :
  Forall (fun e => touches_device e = false)
    (create_data_and_log_dirs Scenario.machine_ok Scenario.kafka_config
       None (Some []) (Some "/var/log/kafka") (Some "/data")
       "" "" "cp-kafka" "confluent" None []).2.
Proof. apply create_dirs_no_device; reflexivity. Defined.

End kafka_dirs.

(** ** [wand/apps/kafka.py]: packages and the override file *)

Section kafka_packages.

Import Kafka.

Lemma lower_char_idem (c : ascii) : lower_char (lower_char c) = lower_char c.
Proof. destruct c as [[] [] [] [] [] [] [] []]; reflexivity. Qed.

Lemma lower_idem (s : string) : lower (lower s) = lower s.
Proof.
  induction s as [|c s IH]; [done |]. simpl. by rewrite lower_char_idem, IH.
Qed.

Lemma distro_insert (config : gmap string string) (s : string) :
  distro (<["distro" := s]> config) = lower s.
Proof. unfold distro. by rewrite lookup_insert_eq. Qed.

(** X20: [install_packages] reads the distribution selector without regard
    to letter case: a selector and its lower-case form give the same calls
    and the same outcome. *)
Theorem install_packages_case_insensitive (host : Host)
  (config : gmap string string) (s java_version : string)
  (packages : list string) :
  install_packages host (<["distro" := s]> config) java_version packages =
  install_packages host (<["distro" := lower s]> config) java_version packages.
Proof.
  unfold install_packages. rewrite !distro_insert, lower_idem.
  by rewrite !lookup_insert_ne.
Qed.

(** X21: with the selector "confluent", packages are installed only after
    the archive key was fetched, the source added and the index updated, all
    three without raising; the key and the source are those of the
    configured version, 6.1 when none is set. *)
Theorem install_packages_confluent_order (host : Host)
  (config : gmap string string) (java_version : string)
  (packages pkgs : list string) :
  distro config = "confluent" ->
  AptInstall pkgs ∈ (install_packages host config java_version packages).2 ->
  let version := default "6.1" (config !! "version") in
  let cmd := ["wget"; "-qO"; "-";
              "https://packages.confluent.io/deb/" +:+ version +:+ "/archive.key"] in
  let source := "deb [arch=amd64] https://packages.confluent.io/deb/"
                +:+ version +:+ " stable main" in
  exists key,
    check_output host cmd = Returned key /\
    add_source host source key = Returned tt /\
    apt_update host = Returned tt /\
    install_packages host config java_version packages =
    (apt_install host packages,
     [CheckOutput cmd; AddSource source key; AptUpdate; AptInstall packages]).
Proof.
  intros Hd Hin version cmd source. subst version cmd source. revert Hin.
  unfold install_packages, LATEST_VERSION_CONFLUENT.
  rewrite decide_True by done.
  destruct (check_output host _) as [key | e] eqn:Hkey; simpl.
  2: { intros Hin. apply list_elem_of_singleton in Hin. done. }
  destruct (add_source host _ key) as [[] | e] eqn:Hadd; simpl.
  2: { rewrite !elem_of_cons, elem_of_nil. intros [? | [? | []]]; done. }
  destruct (apt_update host) as [[] | e] eqn:Hupd; simpl.
  2: { rewrite !elem_of_cons, elem_of_nil. intros [? | [? | [? | []]]]; done. }
  intros _. exists key. by rewrite Hadd.
Qed.

Lemma install_packages_confluent_order_witness :
  install_packages Scenario.host_ok ∅ "11" ["confluent-kafka"] =
  (Returned tt,
   [CheckOutput ["wget"; "-qO"; "-";
                 "https://packages.confluent.io/deb/6.1/archive.key"];
    AddSource "deb [arch=amd64] https://packages.confluent.io/deb/6.1 stable main"
              "KEY";
    AptUpdate; AptInstall ["confluent-kafka"]]).
Proof.
  destruct (install_packages_confluent_order Scenario.host_ok ∅ "11"
              ["confluent-kafka"] ["confluent-kafka"])
    as (key & Hkey & _ & _ & Heq).
  - reflexivity.
  - vm_compute. repeat constructor.
  - rewrite Heq. injection Hkey as <-. reflexivity.
Defined.

(** *** The environment overrides *)

Lemma append_assoc (a b c : string) : (a +:+ b) +:+ c = a +:+ b +:+ c.
Proof.
  induction a as [|x a IH]; [done |]. rewrite !app_cons. by f_equal.
Qed.

Lemma append_nonempty_r (a b : string) : b <> "" -> a +:+ b <> "".
Proof.
  intros Hb. destruct a as [|x a]; [by rewrite app_nil_l |].
  by rewrite app_cons.
Qed.

Lemma glue_empty (opt : string) : glue "" opt = opt.
Proof. reflexivity. Qed.

Lemma glue_text (cur opt : string) :
  cur <> "" -> glue cur opt = cur +:+ " " +:+ opt.
Proof.
  intros Hc. unfold glue. apply has_text in Hc. rewrite Hc.
  apply append_assoc.
Qed.

Lemma glue_nonempty (cur opt : string) : opt <> "" -> glue cur opt <> "".
Proof. intros Ho. unfold glue. by apply append_nonempty_r. Qed.

Lemma filter_nonempty_id (l : list string) :
  Forall nonempty l -> filter nonempty l = l.
Proof.
  induction 1 as [|x l Hx Hl IH]; [done |].
  rewrite filter_cons_True by done. by rewrite IH.
Qed.

(** The blocks applied one after the other join the non-empty texts with
    single spaces. *)
Lemma foldl_glue (cur : string) (parts : list string) :
  Forall nonempty parts ->
  foldl glue cur parts = join " " (filter nonempty (cur :: parts)).
Proof.
  intros Hparts. revert cur.
  induction Hparts as [|p ps Hp Hps IH]; intros cur.
  - simpl. destruct (decide (cur = "")) as [-> |].
    + by rewrite filter_cons_False by (unfold nonempty; tauto).
    + by rewrite filter_cons_True by done.
  - simpl. rewrite IH.
    rewrite (filter_cons_True nonempty (glue cur p))
      by (by apply glue_nonempty).
    rewrite (filter_nonempty_id ps) by done.
    destruct (decide (cur = "")) as [-> | Hc].
    + rewrite glue_empty.
      rewrite (filter_cons_False nonempty "") by (unfold nonempty; tauto).
      rewrite filter_cons_True by done. by rewrite filter_nonempty_id.
    + rewrite glue_text by done.
      rewrite filter_cons_True by done.
      rewrite filter_cons_True by done. rewrite filter_nonempty_id by done.
      destruct ps as [|q ps].
      * done.
      * rewrite !join_cons by done. by rewrite !append_assoc.
Qed.

Lemma add_opt_text opt (env : gmap string (option string)) cur :
  env !! KAFKA_OPTS = Some (Some cur) ->
  add_opt opt env = Returned (<[KAFKA_OPTS := Some (glue cur opt)]> env).
Proof. intros Hc. unfold add_opt. by rewrite Hc. Qed.

(** One guarded block, on an environment that has a text for KAFKA_OPTS. *)
Lemma block_text (b : bool) opt (env0 : gmap string (option string)) cur :
  (if b then add_opt opt (<[KAFKA_OPTS := Some cur]> env0)
   else Returned (<[KAFKA_OPTS := Some cur]> env0)) =
  Returned (<[KAFKA_OPTS := Some (foldl glue cur (if b then [opt] else []))]> env0).
Proof.
  destruct b; [| done].
  rewrite (add_opt_text opt _ cur) by apply lookup_insert_eq.
  by rewrite insert_insert_eq.
Qed.

Lemma parts_nonempty feat config jmx_file_name :
  Forall nonempty (kafka_opts_parts feat config jmx_file_name).
Proof.
  unfold kafka_opts_parts.
  repeat apply Forall_app_2;
    repeat match goal with |- context [if ?b then _ else _] => destruct b end;
    repeat constructor; done.
Qed.

(** X22: when the environment overrides are an empty YAML document, as
    they are when the option is unset, [render_service_override_file]
    raises [TypeError] at the test for KAFKA_OPTS and never calls
    [render]. *)
Theorem render_empty_environment
  (safe_load : string -> result (option (gmap string (option string))))
  (feat : Features) (config : gmap string string)
  (target jmx_file_name : string) su so :
  safe_load (default "" (config !! "service-unit-overrides")) = Returned su ->
  safe_load (default "" (config !! "service-overrides")) = Returned so ->
  safe_load (default "" (config !! "service-environment-overrides"))
    = Returned None ->
  render_service_override_file safe_load feat config target jmx_file_name
  = Raised TypeError.
Proof.
  intros Hsu Hso Hse. unfold render_service_override_file.
  by rewrite Hsu, Hso, Hse.
Qed.

Lemma render_empty_environment_witness :
  render_service_override_file Scenario.yaml_loader base_features ∅
    "/etc/systemd/system/kafka.service.d/override.conf" "kafka"
  = Raised TypeError.
Proof.
  apply (render_empty_environment Scenario.yaml_loader base_features ∅
           "/etc/systemd/system/kafka.service.d/override.conf" "kafka"
           None None);
    reflexivity.
Defined.

(** X23: when the three documents load and KAFKA_OPTS is not null in the
    environment overrides, [render] is called, and the environment it gets
    is the loaded one with KAFKA_OPTS set to the given text and the options
    of the enabled features, in the fixed order tls, jaas, jolokia, jmx,
    joined by single spaces; KAFKA_OPTS is absent when that text is
    empty. *)
Theorem render_kafka_opts
  (safe_load : string -> result (option (gmap string (option string))))
  (feat : Features) (config : gmap string string)
  (target jmx_file_name : string) su so
  (env : gmap string (option string)) :
  safe_load (default "" (config !! "service-unit-overrides")) = Returned su ->
  safe_load (default "" (config !! "service-overrides")) = Returned so ->
  safe_load (default "" (config !! "service-environment-overrides"))
    = Returned (Some env) ->
  env !! KAFKA_OPTS <> Some None ->
  let given := match env !! KAFKA_OPTS with
               | Some (Some v) => v
               | _ => ""
               end in
  let opts := join " " (filter nonempty
                          (given :: kafka_opts_parts feat config jmx_file_name)) in
  exists call,
    render_service_override_file safe_load feat config target jmx_file_name
      = Returned call /\
    service_environment_overrides call =
      if decide (opts = "") then delete KAFKA_OPTS env
      else <[KAFKA_OPTS := Some opts]> env.
Proof.
  intros Hsu Hso Hse Hnull given opts.
  unfold render_service_override_file. rewrite Hsu, Hso, Hse. simpl.
  set (env0 := if bool_decide (is_Some (env !! KAFKA_OPTS)) then env
               else <[KAFKA_OPTS := Some ""]> env).
  assert (Henv0 : env0 = <[KAFKA_OPTS := Some given]> env).
  { unfold env0, given. destruct (env !! KAFKA_OPTS) as [[v|]|] eqn:Hk.
    - rewrite bool_decide_eq_true_2 by eauto. by rewrite insert_id.
    - done.
    - rewrite bool_decide_eq_false_2; [done |]. by intros [? ?]. }
  rewrite Henv0.
  rewrite (block_text (ssl_enabled feat)). simpl.
  rewrite (block_text (sasl_kerberos_enabled feat || sasl_digest_enabled feat)).
  simpl. rewrite (block_text (jolokia_enabled feat)). simpl.
  rewrite (block_text (jmxexporter_enabled feat)). simpl.
  rewrite lookup_insert_eq. simpl.
  rewrite <- !foldl_app.
  fold (kafka_opts_parts feat config jmx_file_name).
  rewrite foldl_glue by apply parts_nonempty. fold opts.
  eexists. split; [reflexivity |]. simpl.
  destruct (decide (opts = "")) as [-> | Hopts].
  - simpl. by rewrite delete_insert_eq.
  - apply has_text in Hopts.
    assert ((String.length opts =? 0)%nat = false) as ->.
    { destruct opts; [done | done]. }
    done.
Qed.

Lemma render_kafka_opts_witness :
  exists call,
    render_service_override_file Scenario.yaml_loader
      (mkFeatures true false false true false)
      (<["service-environment-overrides" := "KAFKA_OPTS: -Xmx1g"]> ∅)
      "/etc/systemd/system/kafka.service.d/override.conf" "kafka"
    = Returned call /\
    service_environment_overrides call !! KAFKA_OPTS =
    Some (Some ("-Xmx1g -Djdk.tls.ephemeralDHKeySize=2048 " +:+
                "-javaagent:/opt/jolokia/jolokia.jar=" +:+
                "config=/etc/kafka/jolokia.properties")).
Proof.
  destruct (render_kafka_opts Scenario.yaml_loader
              (mkFeatures true false false true false)
              (<["service-environment-overrides" := "KAFKA_OPTS: -Xmx1g"]> ∅)
              "/etc/systemd/system/kafka.service.d/override.conf" "kafka"
              None None {["KAFKA_OPTS" := Some "-Xmx1g"]})
    as (call & Hcall & Henv).
  - reflexivity.
  - reflexivity.
  - reflexivity.
  - vm_compute. discriminate.
  - exists call. split; [exact Hcall |]. rewrite Henv. reflexivity.
Defined.

End kafka_packages.

(** ** [java_ssl.py]: saving a certificate chain *)

(** X24: [saveCrtChainToFile] raises [NameError] on every call, before it
    looks at the target paths: it writes no file, with or without [force],
    and its refusal "already exists, aborting" is never raised. *)
Theorem saveCrtChainToFile_never_writes (buffer : string)
  (cert_path : option string) (ca_chain_path user grp : string) (force : bool)
  (fs : gmap string JavaSsl.File) :
  let r := JavaSsl.saveCrtChainToFile buffer cert_path ca_chain_path user grp
             force fs in
  r.1 = Raised (NameError "crts") /\ r.2 = fs /\
  forall msg, r.1 <> Raised (Exception msg).
Proof. repeat split. discriminate. Qed.
